(** * DuckDuckGo search wrapper ([metagpt/tools/search_engine_ddg.py])

    A shallow embedding of [DDGAPIWrapper] and of the library behaviour its
    decorators rely on ([json], [tenacity.retry], [aiocache.cached]), with
    the properties of the wrapper's observable contract.

    Layout: Python text and values; [json.dumps] / [json.loads]; exceptions
    and the state-and-exception monad of the interpreter; the provider;
    [_search_from_ddgs], [run] under its retry decorator, [cached_run];
    then the lemmas, the contract of the wrapper, and further properties
    of the trace of [run], of the search and of the cache entries. *)

From Stdlib Require Import ZArith NArith Ascii String Lia.
From stdpp Require Import base decidable option numbers list countable strings gmap.

Local Open Scope N_scope.
#[local] Set Warnings "-register-all".

(* ===================================================================== *)
(** * Python text

    A Python [str] is a sequence of code points.  ASCII literals of the
    source are written with [text]. *)

Abbreviation pystr := (list N).

Definition text (s : string) : pystr := map N_of_ascii (list_ascii_of_string s).

Abbreviation QUOTE := 34%N.       (* the double quote *)
Abbreviation BACKSLASH := 92%N.

(** [prefix ++ ...]: does [s] start with [p]? *)
Fixpoint startswith (p s : pystr) : bool :=
  match p, s with
  | [], _ => true
  | _ :: _, [] => false
  | a :: p', b :: s' => (a =? b) && startswith p' s'
  end.

(** [needle in haystack] on [str]: substring test. *)
Fixpoint contains (needle haystack : pystr) : bool :=
  startswith needle haystack ||
  match haystack with
  | [] => false
  | _ :: rest => contains needle rest
  end.

(** [sep.join(parts)] *)
Fixpoint join (sep : pystr) (parts : list pystr) : pystr :=
  match parts with
  | [] => []
  | [p] => p
  | p :: ps => p ++ sep ++ join sep ps
  end.

(** [repr] of a [str] made of printable ASCII without quotes or
    backslashes, the only strings whose [repr] the wrapper ever takes
    (the key of a [KeyError]). *)
Definition repr_plain (s : pystr) : pystr := 39 :: s ++ [39].

(* ===================================================================== *)
(** * Python values that flow through the wrapper

    [None], [str], [list] and [dict] with [str] keys.  A [dict] keeps
    insertion order, which [json.dumps] exposes, so it is an association
    list maintained by [dict_setitem]. *)

Inductive pyval : Type :=
  | PNone
  | PStr (s : pystr)
  | PList (items : list pyval)
  | PDict (pairs : list (pystr * pyval)).

(** [d[k] = v] *)
Fixpoint dict_setitem (k : pystr) (v : pyval) (d : list (pystr * pyval))
  : list (pystr * pyval) :=
  match d with
  | [] => [(k, v)]
  | (k', v') :: d' =>
      if decide (k' = k) then (k, v) :: d' else (k', v') :: dict_setitem k v d'
  end.

(** [dict(pairs)], also the evaluation of a dict display [{k1: v1, ...}] *)
Definition dict_of_pairs (pairs : list (pystr * pyval)) : list (pystr * pyval) :=
  foldl (fun d kv => dict_setitem kv.1 kv.2 d) [] pairs.

(* ===================================================================== *)
(** * [json.dumps]

    [json.encoder]: [py_encode_basestring] (when [ensure_ascii] is false)
    and [py_encode_basestring_ascii], default separators [", "] and
    [": "]. *)

Definition hexdigit (d : N) : N := if d <? 10 then 48 + d else 87 + d.

(** ['{0:04x}'.format(n)], for the [n < 0x10000] it is applied to *)
Definition format_04x (n : N) : pystr :=
  [hexdigit (n / 4096 mod 16); hexdigit (n / 256 mod 16);
   hexdigit (n / 16 mod 16); hexdigit (n mod 16)].

Definition u_escape (n : N) : pystr := BACKSLASH :: 117 :: format_04x n.

(** The two-character escapes of [ESCAPE_DCT]. *)
Definition short_escape (c : N) : option N :=
  if c =? BACKSLASH then Some BACKSLASH
  else if c =? QUOTE then Some QUOTE
  else if c =? 8 then Some 98        (* \b *)
  else if c =? 12 then Some 102      (* \f *)
  else if c =? 10 then Some 110      (* \n *)
  else if c =? 13 then Some 114      (* \r *)
  else if c =? 9 then Some 116       (* \t *)
  else None.

(** Replacement of one character.  Without [ensure_ascii] only the
    quote, the backslash and the control characters below 0x20 are
    replaced; with it everything outside [' '..'~'] is, characters beyond
    the BMP as a surrogate pair. *)
Definition escape_char (ensure_ascii : bool) (c : N) : pystr :=
  match short_escape c with
  | Some e => [BACKSLASH; e]
  | None =>
      if c <? 32 then u_escape c
      else if negb ensure_ascii || (c <=? 126) then [c]
      else if c <? 65536 then u_escape c
      else
        let n := c - 65536 in
        let s1 := N.lor 55296 (N.land (N.shiftr n 10) 1023) in
        let s2 := N.lor 56320 (N.land n 1023) in
        u_escape s1 ++ u_escape s2
  end.

Definition encode_basestring (ensure_ascii : bool) (s : pystr) : pystr :=
  QUOTE :: flat_map (escape_char ensure_ascii) s ++ [QUOTE].

Fixpoint json_dumps (ensure_ascii : bool) (v : pyval) : pystr :=
  match v with
  | PNone => text "null"
  | PStr s => encode_basestring ensure_ascii s
  | PList items =>
      text "[" ++ join (text ", ") (map (json_dumps ensure_ascii) items) ++ text "]"
  | PDict pairs =>
      text "{" ++
      join (text ", ")
        (map (fun kv => encode_basestring ensure_ascii kv.1 ++ text ": " ++
                        json_dumps ensure_ascii kv.2) pairs) ++
      text "}"
  end.

(* ===================================================================== *)
(** * [json.loads]

    [json.decoder] and [json.scanner] on the fragment of JSON built from
    strings, arrays, objects and [null]; number and boolean literals do
    not occur in what the wrapper serializes and are rejected here.
    [None] stands for [JSONDecodeError]. *)

Definition is_ws (c : N) : bool :=
  (c =? 32) || (c =? 9) || (c =? 10) || (c =? 13).

Fixpoint skip_ws (s : pystr) : pystr :=
  match s with
  | c :: r => if is_ws c then skip_ws r else s
  | [] => []
  end.

Definition hexval (c : N) : option N :=
  if (48 <=? c) && (c <=? 57) then Some (c - 48)
  else if (97 <=? c) && (c <=? 102) then Some (c - 87)
  else if (65 <=? c) && (c <=? 70) then Some (c - 55)
  else None.

(** [_decode_uXXXX] *)
Definition decode_uXXXX (a b c d : N) : option N :=
  match hexval a, hexval b, hexval c, hexval d with
  | Some x3, Some x2, Some x1, Some x0 => Some (((x3 * 16 + x2) * 16 + x1) * 16 + x0)
  | _, _, _, _ => None
  end.

(** [BACKSLASH] table of the decoder *)
Definition unescape (e : N) : option N :=
  if e =? QUOTE then Some QUOTE
  else if e =? BACKSLASH then Some BACKSLASH
  else if e =? 47 then Some 47
  else if e =? 98 then Some 8
  else if e =? 102 then Some 12
  else if e =? 110 then Some 10
  else if e =? 114 then Some 13
  else if e =? 116 then Some 9
  else None.

(** one decoded character in front of the rest of the scan *)
Definition emit (c : N) (r : option (pystr * pystr)) : option (pystr * pystr) :=
  (fun p => (c :: p.1, p.2)) <$> r.

(** [scanstring] with [strict=True], from just after the opening quote:
    the decoded string and the text after the closing quote.  A [\uXXXX]
    naming a high surrogate that is directly followed by a [\uXXXX]
    naming a low surrogate is joined with it into one code point. *)

Fixpoint scanstring (s : pystr) : option (pystr * pystr) :=
  match s with
  | [] => None
  | c :: r =>
      if c =? QUOTE then Some ([], r)
      else if c =? BACKSLASH then
        match r with
        | [] => None
        | e :: r1 =>
            if e =? 117 then
              match r1 with
              | a :: b :: c' :: d :: r5 =>
                  match decode_uXXXX a b c' d with
                  | None => None
                  | Some uni =>
                      if (55296 <=? uni) && (uni <=? 56319) then
                        match r5 with
                        | b1 :: u1 :: a2 :: b2 :: c2 :: d2 :: r11 =>
                            if (b1 =? BACKSLASH) && (u1 =? 117) then
                              match decode_uXXXX a2 b2 c2 d2 with
                              | None => None
                              | Some uni2 =>
                                  if (56320 <=? uni2) && (uni2 <=? 57343) then
                                    emit (65536 + N.lor (N.shiftl (uni - 55296) 10)
                                                        (uni2 - 56320))
                                         (scanstring r11)
                                  else emit uni (scanstring r5)
                              end
                            else emit uni (scanstring r5)
                        | _ => emit uni (scanstring r5)
                        end
                      else emit uni (scanstring r5)
                  end
              | _ => None
              end
            else
              match unescape e with
              | None => None
              | Some ch => emit ch (scanstring r1)
              end
        end
      else if c <? 32 then None
      else emit c (scanstring r)
  end.

(** [scan_once] with [JSONArray] and [JSONObject].  [fuel] bounds the
    number of scanner calls; [json_loads] supplies one more than the
    length of the text, which is enough for every serialized value
    ([weight_lt_length] below). *)
Fixpoint scan_once (fuel : nat) (s : pystr) : option (pyval * pystr) :=
  match fuel with
  | O => None
  | S fuel =>
      match s with
      | [] => None
      | c :: r =>
          if c =? QUOTE then
            (fun p => (PStr p.1, p.2)) <$> scanstring r
          else if c =? 123 then                       (* { *)
            match skip_ws r with
            | c' :: r' =>
                if c' =? 125 then Some (PDict [], r')
                else if c' =? QUOTE then
                  (fun p => (PDict (dict_of_pairs p.1), p.2)) <$> JSONObject fuel r'
                else None
            | [] => None
            end
          else if c =? 91 then                        (* [ *)
            match skip_ws r with
            | c' :: r' =>
                if c' =? 93 then Some (PList [], r')
                else (fun p => (PList p.1, p.2)) <$> JSONArray fuel (c' :: r')
            | [] => None
            end
          else if startswith (text "null") s then
            Some (PNone, drop 4 s)
          else None
      end
  end

(** the values of an array, from the start of a value up to and including
    the closing bracket *)
with JSONArray (fuel : nat) (s : pystr) : option (list pyval * pystr) :=
  match fuel with
  | O => None
  | S fuel =>
      match scan_once fuel s with
      | None => None
      | Some (v, r) =>
          match skip_ws r with
          | c :: r' =>
              if c =? 93 then Some ([v], r')
              else if c =? 44 then
                (fun p => (v :: p.1, p.2)) <$> JSONArray fuel (skip_ws r')
              else None
          | [] => None
          end
      end
  end

(** the pairs of an object, from just after the opening quote of a key up
    to and including the closing brace *)
with JSONObject (fuel : nat) (s : pystr) : option (list (pystr * pyval) * pystr) :=
  match fuel with
  | O => None
  | S fuel =>
      match scanstring s with
      | None => None
      | Some (key, r) =>
          match skip_ws r with
          | c :: r1 =>
              if c =? 58 then
                match scan_once fuel (skip_ws r1) with
                | None => None
                | Some (v, r2) =>
                    match skip_ws r2 with
                    | c2 :: r3 =>
                        if c2 =? 125 then Some ([(key, v)], r3)
                        else if c2 =? 44 then
                          match skip_ws r3 with
                          | q :: r4 =>
                              if q =? QUOTE then
                                (fun p => ((key, v) :: p.1, p.2)) <$> JSONObject fuel r4
                              else None
                          | [] => None
                          end
                        else None
                    | [] => None
                    end
                end
              else None
          | [] => None
          end
      end
  end.

(** [json.loads(s)]: leading whitespace, one value, trailing whitespace
    only. *)
Definition json_loads (s : pystr) : option pyval :=
  match scan_once (S (length s)) (skip_ws s) with
  | Some (v, rest) => match skip_ws rest with [] => Some v | _ :: _ => None end
  | None => None
  end.


Local Close Scope N_scope.

(* ===================================================================== *)
(** * Exceptions

    An instance of (a subclass of) [Exception]: its class, what [str(e)]
    gives, and the [__cause__] set by [raise ... from].  The provider may
    raise instances of any class, named by [OtherException]. *)

Inductive exc_class : Type :=
  | DuckDuckGoSearchException          (* the class defined by the wrapper *)
  | KeyError
  | RetryError                         (* tenacity's, when [reraise] is off *)
  | OtherException (name : string).

#[global] Instance exc_class_eq_dec : EqDecision exc_class.
Proof. solve_decision. Defined.

Inductive pyexc : Type :=
  | Exc (cls : exc_class) (msg : pystr) (cause : option pyexc).

Definition exc_type (e : pyexc) : exc_class := let 'Exc c _ _ := e in c.
Definition exc_str (e : pyexc) : pystr := let 'Exc _ m _ := e in m.
Definition exc_cause (e : pyexc) : option pyexc := let 'Exc _ _ c := e in c.

(** [isinstance(e, cls)]; none of the classes above derives from another *)
Definition isinstance (e : pyexc) (cls : exc_class) : bool :=
  bool_decide (exc_type e = cls).

(** [raise cls(msg) from e] builds this exception *)
Definition raise_from (cls : exc_class) (msg : pystr) (e : pyexc) : pyexc :=
  Exc cls msg (Some e).

(** what [i[key]] raises on a missing key; [str] of a [KeyError] is the
    [repr] of the key *)
Definition key_error (key : pystr) : pyexc := Exc KeyError (repr_plain key) None.

(* ===================================================================== *)
(** * The interpreter state and its monad

    What the wrapper and its decorators read and write.  Counters record
    the effects the properties talk about; time is the event loop's clock
    in seconds. *)

Abbreviation cache_key := (pystr * Z * bool)%type.

Record state : Type := State {
  provider_calls : nat;      (* calls of [DDGS.text] made so far *)
  pulled : nat;              (* [next()] calls on provider result sequences *)
  tokens_acquired : nat;     (* entries of [async with self.rate_limiter] *)
  attempts : nat;            (* executions of the body of [run] *)
  clock : Z;
  sleeps : list Z;           (* waits of the retry policy, oldest first *)
  stdout : list pystr;       (* lines printed, oldest first *)
  cache : gmap cache_key (pystr * Z)   (* key -> serialized value, expiry *)
}.

Definition initial_state : state := State 0 0 0 0 0 [] [] ∅.

Inductive outcome (A : Type) : Type :=
  | Returned (a : A)
  | Raised (e : pyexc).
Arguments Returned {A} a.
Arguments Raised {A} e.

Definition M (A : Type) : Type := state -> outcome A * state.

Definition ret {A} (a : A) : M A := fun s => (Returned a, s).

Definition raise {A} (e : pyexc) : M A := fun s => (Raised e, s).

Definition bind {A B} (m : M A) (k : A -> M B) : M B :=
  fun s =>
    match m s with
    | (Returned a, s') => k a s'
    | (Raised e, s') => (Raised e, s')
    end.

(** [try: m  except Exception as e: handler e] *)
Definition try_except {A} (m : M A) (handler : pyexc -> M A) : M A :=
  fun s =>
    match m s with
    | (Returned a, s') => (Returned a, s')
    | (Raised e, s') => handler e s'
    end.

Notation "x <- m ;; k" := (bind m (fun x => k))
  (at level 100, m at next level, right associativity).
Notation "m ;;; k" := (bind m (fun _ => k))
  (at level 100, right associativity).

Definition modify (f : state -> state) : M unit := fun s => (Returned tt, f s).

Definition count_provider_call (s : state) : state :=
  State (S (provider_calls s)) (pulled s) (tokens_acquired s) (attempts s)
        (clock s) (sleeps s) (stdout s) (cache s).
Definition count_pull (s : state) : state :=
  State (provider_calls s) (S (pulled s)) (tokens_acquired s) (attempts s)
        (clock s) (sleeps s) (stdout s) (cache s).
Definition count_token (s : state) : state :=
  State (provider_calls s) (pulled s) (S (tokens_acquired s)) (attempts s)
        (clock s) (sleeps s) (stdout s) (cache s).
Definition count_attempt (s : state) : state :=
  State (provider_calls s) (pulled s) (tokens_acquired s) (S (attempts s))
        (clock s) (sleeps s) (stdout s) (cache s).
Definition write_line (line : pystr) (s : state) : state :=
  State (provider_calls s) (pulled s) (tokens_acquired s) (attempts s)
        (clock s) (sleeps s) (stdout s ++ [line]) (cache s).
(** [d] seconds go by *)
Definition elapse (d : Z) (s : state) : state :=
  State (provider_calls s) (pulled s) (tokens_acquired s) (attempts s)
        (clock s + d)%Z (sleeps s) (stdout s) (cache s).
(** the retry policy sleeps for [d] seconds *)
Definition sleep_for (d : Z) (s : state) : state :=
  State (provider_calls s) (pulled s) (tokens_acquired s) (attempts s)
        (clock s + d)%Z (sleeps s ++ [d]) (stdout s) (cache s).
Definition cache_store (k : cache_key) (payload : pystr) (expiry : Z) (s : state)
  : state :=
  State (provider_calls s) (pulled s) (tokens_acquired s) (attempts s)
        (clock s) (sleeps s) (stdout s) (<[k := (payload, expiry)]> (cache s)).

(** [print(line)] *)
Definition print (line : pystr) : M unit := modify (write_line line).

(* ===================================================================== *)
(** * The search provider ([duckduckgo_search.DDGS])

    An opaque collaborator.  A call of [DDGS(...).text(query)] either
    raises or hands back an iterable; each [next()] on it yields a record
    (a [dict] of [str]), raises, or finds it exhausted.  What the provider
    answers may differ from one call to the next, so it is indexed by the
    number of calls made before. *)

Abbreviation record := (gmap pystr pystr).

Inductive yielded : Type :=
  | Item (i : record)
  | Throws (e : pyexc).

Inductive response : Type :=
  | CallRaises (e : pyexc)
  | Iterable (items : list yielded).

Definition provider : Type := nat -> pystr -> response.

(** [self.ddgs.text(query)] *)
Definition ddgs_text (ddgs : provider) (query : pystr) : M (list yielded) :=
  fun s =>
    match ddgs (provider_calls s) query with
    | CallRaises e => (Raised e, count_provider_call s)
    | Iterable items => (Returned items, count_provider_call s)
    end.

(** [next(it)]: [None] is [StopIteration] *)
Definition next (it : list yielded) : M (option (record * list yielded)) :=
  modify count_pull ;;;
  match it with
  | [] => ret None
  | Throws e :: _ => raise e
  | Item i :: it' => ret (Some (i, it'))
  end.

(** [i[key]] *)
Definition getitem (i : record) (key : pystr) : M pystr :=
  match i !! key with
  | Some v => ret v
  | None => raise (key_error key)
  end.

(** [range(n)] *)
Definition range (n : Z) : list Z := Z.of_nat <$> seq 0 (Z.to_nat n).

(* ===================================================================== *)
(** * [DDGAPIWrapper._search_from_ddgs] (lines 104-108) *)

(** [{"link": i["href"], "snippet": i["body"], "title": i["title"]}] *)
Definition result_of (i : record) : M pyval :=
  href <- getitem i (text "href") ;;
  body <- getitem i (text "body") ;;
  title <- getitem i (text "title") ;;
  ret (PDict (dict_of_pairs [(text "link", PStr href);
                             (text "snippet", PStr body);
                             (text "title", PStr title)])).

(** [[... for (_, i) in zip(range(max_results), it)]]: [zip] advances the
    range first and stops there without touching [it] once the range is
    exhausted. *)
Fixpoint comprehension (rng : list Z) (it : list yielded) : M (list pyval) :=
  match rng with
  | [] => ret []
  | _ :: rng' =>
      nx <- next it ;;
      match nx with
      | None => ret []
      | Some (i, it') =>
          row <- result_of i ;;
          rest <- comprehension rng' it' ;;
          ret (row :: rest)
      end
  end.

Definition _search_from_ddgs (ddgs : provider) (query : pystr) (max_results : Z)
  : M pyval :=
  it <- ddgs_text ddgs query ;;
  rows <- comprehension (range max_results) it ;;
  ret (PList rows).

(* ===================================================================== *)
(** * [tenacity.retry] with the arguments of line 55-60 *)

(** [wait_exponential(multiplier, min, max)] after attempt [attempt_number]
    (counted from 1), with [exp_base = 2] *)
Definition wait_exponential (multiplier min max : Z) (attempt_number : nat) : Z :=
  let exp := (2 ^ (Z.of_nat attempt_number - 1))%Z in
  let result := (multiplier * exp)%Z in
  Z.max (Z.max 0 min) (Z.min result max).

Definition stop_after_attempt (max_attempt_number attempt_number : nat) : bool :=
  (max_attempt_number <=? attempt_number)%nat.

Definition retry_if_exception_type (cls : exc_class) (e : pyexc) : bool :=
  isinstance e cls.

Record policy : Type := Policy {
  retry_on : pyexc -> bool;
  wait_after : nat -> Z;
  stop_at : nat -> bool;
  reraise : bool
}.

(** The loop of [Retrying]: call, and on an exception the policy retries,
    either stop (re-raising the last exception when [reraise] is set,
    [RetryError] otherwise) or sleep and call again.  [budget] bounds the
    iterations for the recursion; [retry] starts it with as many as the
    stop condition allows. *)
Fixpoint retrying {A} (p : policy) (budget attempt_number : nat) (fn : M A) : M A :=
  fun s =>
    match fn (count_attempt s) with
    | (Returned a, s1) => (Returned a, s1)
    | (Raised e, s1) =>
        if retry_on p e then
          if stop_at p attempt_number then
            (Raised (if reraise p then e else raise_from RetryError [] e), s1)
          else
            match budget with
            | O => (Raised e, s1)
            | S budget' =>
                retrying p budget' (S attempt_number) fn
                         (sleep_for (wait_after p attempt_number) s1)
            end
        else (Raised e, s1)
    end.

Definition run_policy : policy :=
  Policy (retry_if_exception_type DuckDuckGoSearchException)
         (wait_exponential 1 4 10)
         (stop_after_attempt 5)
         true.

(* ===================================================================== *)
(** * [DDGAPIWrapper.run] (lines 55-102) *)

(** the [except Exception as e] clause of lines 89-97 *)
Definition on_exception {A} (query : pystr) (e : pyexc) : M A :=
  if contains (text "Ratelimit") (exc_str e) then
    print (text "Rate limit hit for query: " ++ query ++ text ". Retrying...") ;;;
    raise (raise_from DuckDuckGoSearchException (text "Rate limit exceeded") e)
  else
    print (text "An error occurred: " ++ exc_str e) ;;;
    raise (raise_from DuckDuckGoSearchException
                      (text "An error occurred during search") e).

(** the body of [run]: one attempt *)
Definition run_body (ddgs : provider) (query : pystr) (max_results : Z)
    (as_string : bool) : M pyval :=
  modify count_token ;;;                                (* async with self.rate_limiter *)
  search_results <-
    try_except (_search_from_ddgs ddgs query max_results) (on_exception query) ;;
  if as_string then ret (PStr (json_dumps false search_results))
  else ret search_results.

Definition run (ddgs : provider) (query : pystr) (max_results : Z)
    (as_string : bool) : M pyval :=
  retrying run_policy 5 1 (run_body ddgs query max_results as_string).

(** a call of [run] that may leave [max_results] or [as_string] out: they
    take the defaults of the signature (lines 61-66) *)
Definition run_call (ddgs : provider) (query : pystr) (max_results : option Z)
    (as_string : option bool) : M pyval :=
  run ddgs query (default 8%Z max_results) (default true as_string).

(* ===================================================================== *)
(** * [aiocache.cached] and [DDGAPIWrapper.cached_run] (lines 110-118)

    [cached(ttl, cache=Cache.MEMORY, serializer=JsonSerializer())]: the
    memory cache keeps, per key, the value serialized with [json.dumps]
    (its default [ensure_ascii]) until [ttl] seconds after it was set.
    The key is built from the arguments of the call. *)

(** [get_from_cache]: the deserialized value of a live entry; an entry
    that does not deserialize, or holds [None], counts as absent *)
Definition get_from_cache (key : cache_key) (s : state) : option pyval :=
  match cache s !! key with
  | Some (payload, expiry) =>
      if (clock s <? expiry)%Z then
        match json_loads payload with
        | Some PNone => None
        | Some v => Some v
        | None => None
        end
      else None
  | None => None
  end.

Definition set_in_cache (key : cache_key) (value : pyval) (ttl : Z) (s : state)
  : state :=
  cache_store key (json_dumps true value) (clock s + ttl)%Z s.

Definition cached (ttl : Z) (key : cache_key) (f : M pyval) : M pyval :=
  fun s =>
    match get_from_cache key s with
    | Some value => (Returned value, s)
    | None =>
        match f s with
        | (Returned result, s1) => (Returned result, set_in_cache key result ttl s1)
        | (Raised e, s1) => (Raised e, s1)
        end
    end.

Definition cached_run (ddgs : provider) (query : pystr) (max_results : Z)
    (as_string : bool) : M pyval :=
  cached 300 (query, max_results, as_string) (run ddgs query max_results as_string).


(* ===================================================================== *)
(** * Notions used to state the properties *)

(** A Unicode scalar value: a code point that is not a surrogate. *)
Definition scalar (c : N) : Prop :=
  (c < 55296 \/ (57344 <= c /\ c < 1114112))%N.

(** A value [json.dumps] and [json.loads] agree on: no key occurs twice in
    a [dict] (as in any Python [dict]) and, where the encoder escapes
    beyond ASCII, the text is made of scalar values. *)
Inductive well_formed (ensure_ascii : bool) : pyval -> Prop :=
  | wf_none : well_formed ensure_ascii PNone
  | wf_str s :
      (ensure_ascii = true -> Forall scalar s) ->
      well_formed ensure_ascii (PStr s)
  | wf_list items :
      Forall (well_formed ensure_ascii) items ->
      well_formed ensure_ascii (PList items)
  | wf_dict pairs :
      NoDup pairs.*1 ->
      Forall (fun kv => (ensure_ascii = true -> Forall scalar kv.1) /\
                        well_formed ensure_ascii kv.2) pairs ->
      well_formed ensure_ascii (PDict pairs).

(** ** What [ensure_ascii] text is read back as

    The ASCII-only encoder writes a character beyond ASCII as the
    [\uXXXX] of its UTF-16 code units, and the scanner joins a high and a
    low surrogate unit that follow each other.  Text made of scalar values
    comes back as it was; a lone high surrogate followed by a lone low one
    comes back as the character the pair encodes. *)

Definition is_high (u : N) : bool := ((55296 <=? u) && (u <=? 56319))%N.
Definition is_low (u : N) : bool := ((56320 <=? u) && (u <=? 57343))%N.

Definition units (c : N) : list N :=
  if (c <? 65536)%N then [c]
  else [N.lor 55296 (N.land (N.shiftr (c - 65536) 10) 1023);
        N.lor 56320 (N.land (c - 65536) 1023)].

Fixpoint join_units (l : list N) : pystr :=
  match l with
  | [] => []
  | hi :: tl =>
      match tl with
      | lo :: r =>
          if is_high hi && is_low lo
          then (65536 + N.lor (N.shiftl (hi - 55296) 10) (lo - 56320))%N :: join_units r
          else hi :: join_units tl
      | [] => [hi]
      end
  end.

Definition reread (ensure_ascii : bool) (s : pystr) : pystr :=
  if ensure_ascii then join_units (flat_map units s) else s.

Fixpoint reread_val (ensure_ascii : bool) (v : pyval) : pyval :=
  match v with
  | PNone => PNone
  | PStr s => PStr (reread ensure_ascii s)
  | PList items => PList (map (reread_val ensure_ascii) items)
  | PDict pairs =>
      PDict (map (fun kv => (kv.1, reread_val ensure_ascii kv.2)) pairs)
  end.

(** A value whose [dict]s have distinct keys, of scalar text where the
    encoder escapes beyond ASCII; the other strings are arbitrary. *)
Inductive keys_ok (ensure_ascii : bool) : pyval -> Prop :=
  | ko_none : keys_ok ensure_ascii PNone
  | ko_str s : keys_ok ensure_ascii (PStr s)
  | ko_list items :
      Forall (keys_ok ensure_ascii) items -> keys_ok ensure_ascii (PList items)
  | ko_dict pairs :
      NoDup pairs.*1 ->
      Forall (fun kv => (ensure_ascii = true -> Forall scalar kv.1) /\
                        keys_ok ensure_ascii kv.2) pairs ->
      keys_ok ensure_ascii (PDict pairs).

(** the number of nested scanner calls a value needs *)
Fixpoint weight (v : pyval) : nat :=
  match v with
  | PNone | PStr _ => 1
  | PList items => S (foldr (fun x acc => S (weight x) + acc) 0 items)
  | PDict pairs => S (foldr (fun kv acc => S (weight kv.2) + acc) 0 pairs)
  end.

(** all the text of a value, in the order it is serialized *)
Fixpoint texts (v : pyval) : pystr :=
  match v with
  | PNone => []
  | PStr s => s
  | PList items => concat (map texts items)
  | PDict pairs => concat (map (fun kv => kv.1 ++ texts kv.2) pairs)
  end.

(** [v] is read by the scanner from its serialization, whatever follows
    it, given fuel for its nesting, as [reread_val v]. *)
Definition reads_back (ensure_ascii : bool) (v : pyval) : Prop :=
  forall fuel r, (weight v <= fuel)%nat ->
    scan_once fuel (json_dumps ensure_ascii v ++ r)
    = Some (reread_val ensure_ascii v, r).

Definition non_ascii (c : N) : bool := (128 <=? c)%N.

(** [{link: href, snippet: body, title: title}] *)
Definition search_result (href body title : pystr) : pyval :=
  PDict [(text "link", PStr href); (text "snippet", PStr body);
         (text "title", PStr title)].

(** [row] is the provider record [i] in the shape the wrapper returns *)
Definition normalized (i : record) (row : pyval) : Prop :=
  exists href body title,
    i !! text "href" = Some href /\ i !! text "body" = Some body /\
    i !! text "title" = Some title /\ row = search_result href body title.

Definition has_fields (i : record) : Prop :=
  is_Some (i !! text "href") /\ is_Some (i !! text "body") /\
  is_Some (i !! text "title").

(** the first of [href], [body], [title], in that order, that [i] lacks *)
Definition first_missing (i : record) : option pystr :=
  match i !! text "href", i !! text "body", i !! text "title" with
  | None, _, _ => Some (text "href")
  | Some _, None, _ => Some (text "body")
  | Some _, Some _, None => Some (text "title")
  | Some _, Some _, Some _ => None
  end.

(** what evaluating the dict display of line 106 on [i] gives *)
Definition result_outcome (i : record) : outcome pyval :=
  match i !! text "href", i !! text "body", i !! text "title" with
  | Some href, Some body, Some title => Returned (search_result href body title)
  | None, _, _ => Raised (key_error (text "href"))
  | Some _, None, _ => Raised (key_error (text "body"))
  | Some _, Some _, None => Raised (key_error (text "title"))
  end.

(** what the comprehension of lines 105-108 gives for a range of [n]
    numbers, and how many times it advances the provider's iterator *)
Fixpoint rows (n : nat) (it : list yielded) : outcome (list pyval) :=
  match n, it with
  | O, _ => Returned []
  | S _, [] => Returned []
  | S _, Throws e :: _ => Raised e
  | S n', Item i :: it' =>
      match result_outcome i with
      | Raised e => Raised e
      | Returned row =>
          match rows n' it' with
          | Raised e => Raised e
          | Returned rest => Returned (row :: rest)
          end
      end
  end.

Fixpoint pulls (n : nat) (it : list yielded) : nat :=
  match n, it with
  | O, _ => 0
  | S _, [] => 1
  | S _, Throws _ :: _ => 1
  | S n', Item i :: it' =>
      match result_outcome i with
      | Raised _ => 1
      | Returned _ => S (pulls n' it')
      end
  end.

Definition add_pulls (n : nat) (s : state) : state :=
  State (provider_calls s) (pulled s + n) (tokens_acquired s) (attempts s)
        (clock s) (sleeps s) (stdout s) (cache s).

(** what [_search_from_ddgs] gives when its provider call is the one
    numbered [n], and how many records it asks the provider for *)
Definition search_outcome (ddgs : provider) (query : pystr) (max_results : Z)
    (n : nat) : outcome pyval :=
  match ddgs n query with
  | CallRaises e => Raised e
  | Iterable it =>
      match rows (Z.to_nat max_results) it with
      | Returned r => Returned (PList r)
      | Raised e => Raised e
      end
  end.

Definition search_pulls (ddgs : provider) (query : pystr) (max_results : Z)
    (n : nat) : nat :=
  match ddgs n query with
  | CallRaises _ => 0
  | Iterable it => pulls (Z.to_nat max_results) it
  end.

(** what the [except] clause of [run] turns a failure into, and the line
    it prints *)
Definition reclassified (e : pyexc) : pyexc :=
  raise_from DuckDuckGoSearchException
    (if contains (text "Ratelimit") (exc_str e)
     then text "Rate limit exceeded"
     else text "An error occurred during search") e.

Definition logged (query : pystr) (e : pyexc) : pystr :=
  if contains (text "Ratelimit") (exc_str e)
  then text "Rate limit hit for query: " ++ query ++ text ". Retrying..."
  else text "An error occurred: " ++ exc_str e.

(** the value [run] returns for the search results [v] *)
Definition returned_as (as_string : bool) (v : pyval) : pyval :=
  if as_string then PStr (json_dumps false v) else v.

(** one attempt of [run] whose provider call is the one numbered [n]:
    its outcome and the state it leaves, from the state [s] before it *)
Definition attempt_outcome (ddgs : provider) (query : pystr) (max_results : Z)
    (as_string : bool) (n : nat) : outcome pyval :=
  match search_outcome ddgs query max_results n with
  | Returned v => Returned (returned_as as_string v)
  | Raised e => Raised (reclassified e)
  end.

Definition attempt_state (ddgs : provider) (query : pystr) (max_results : Z)
    (s : state) : state :=
  let n := provider_calls s in
  let s1 := add_pulls (search_pulls ddgs query max_results n)
                      (count_provider_call (count_token s)) in
  match search_outcome ddgs query max_results n with
  | Returned _ => s1
  | Raised e => write_line (logged query e) s1
  end.

Definition map_outcome {A B} (f : A -> B) (o : outcome A) : outcome B :=
  match o with
  | Returned a => Returned (f a)
  | Raised e => Raised e
  end.

(** some state in which [n] provider calls have been made: the search
    reads nothing else of the state *)
Definition at_call (n : nat) : state := State n 0 0 0 0 [] [] ∅.

(** ** Sample providers, to exercise the statements *)

Definition mock_record (n : N) : record :=
  {[ text "href" := text "https://example.org/" ++ [48 + n]%N;
     text "body" := text "r" ++ [233; 115; 117; 109; 233; 32; 48 + n]%N;
     text "title" := text "Rust " ++ [48 + n]%N ]}.

Definition mock_records : list record := mock_record <$> [1; 2; 3; 4; 5]%N.

(** the rows of the first three of them *)
Definition mock_row (n : N) : pyval :=
  search_result (text "https://example.org/" ++ [48 + n]%N)
                (text "r" ++ [233; 115; 117; 109; 233; 32; 48 + n]%N)
                (text "Rust " ++ [48 + n]%N).

Definition three_rows : pyval := PList (mock_row <$> [1; 2; 3]%N).

(** a provider that yields five records, whatever the query *)
Definition provider_five : provider := fun _ _ => Iterable (Item <$> mock_records).

Definition ratelimit_error : pyexc :=
  Exc (OtherException "Exception") (text "Ratelimit exceeded") None.

Definition timeout_error : pyexc :=
  Exc (OtherException "TimeoutError") (text "timed out") None.

(** a provider whose call raises every time *)
Definition provider_down : provider := fun _ _ => CallRaises ratelimit_error.

(** a provider whose call raises four times and then yields five records *)
Definition provider_recovers : provider :=
  fun n _ => if (n <? 4)%nat then CallRaises ratelimit_error
             else Iterable (Item <$> mock_records).

(** a provider whose second record lacks its [body] *)
Definition provider_malformed : provider :=
  fun _ _ => Iterable [Item (mock_record 1); Item (delete (text "body") (mock_record 2));
                       Item (mock_record 3)].

(** a provider that is rate limited on its first call, times out on its
    second, and yields five records from then on *)
Definition provider_flaky : provider :=
  fun n _ => match n with
             | 0 => CallRaises ratelimit_error
             | 1 => Iterable [Throws timeout_error]
             | _ => Iterable (Item <$> mock_records)
             end.

(** a provider whose iterator fails after two records *)
Definition provider_breaks : provider :=
  fun _ _ => Iterable [Item (mock_record 1); Item (mock_record 2);
                       Throws timeout_error; Item (mock_record 3)].

(** ** Induction on values, through the lists they nest in *)

Section pyval_induction.
Variable P : pyval -> Prop.
Hypothesis Hnone : P PNone.
Hypothesis Hstr : forall s, P (PStr s).
Hypothesis Hlist : forall items, Forall P items -> P (PList items).
Hypothesis Hdict : forall pairs, Forall (fun kv => P kv.2) pairs -> P (PDict pairs).

Fixpoint pyval_nested_ind (v : pyval) : P v :=
  match v with
  | PNone => Hnone
  | PStr s => Hstr s
  | PList items =>
      Hlist items
        ((fix go (l : list pyval) : Forall P l :=
            match l with
            | [] => List.Forall_nil P
            | x :: l' => List.Forall_cons P x l' (pyval_nested_ind x) (go l')
            end) items)
  | PDict pairs =>
      Hdict pairs
        ((fix go (l : list (pystr * pyval)) : Forall (fun kv => P kv.2) l :=
            match l with
            | [] => List.Forall_nil _
            | kv :: l' =>
                List.Forall_cons (fun kv => P kv.2) kv l' (pyval_nested_ind kv.2) (go l')
            end) pairs)
  end.
End pyval_induction.

(* ===================================================================== *)
(** * Properties of the JSON codec *)

Section Strings.
Local Open Scope N_scope.

Lemma hexval_hexdigit d : d < 16 -> hexval (hexdigit d) = Some d.
Proof.
  intros Hd. unfold hexdigit, hexval.
  destruct (N.ltb_spec d 10).
  - replace (48 <=? 48 + d) with true by (symmetry; apply N.leb_le; lia).
    replace (48 + d <=? 57) with true by (symmetry; apply N.leb_le; lia).
    simpl. f_equal. lia.
  - replace ((48 <=? 87 + d) && (87 + d <=? 57)) with false
      by (symmetry; apply andb_false_iff; right; apply N.leb_gt; lia).
    replace (97 <=? 87 + d) with true by (symmetry; apply N.leb_le; lia).
    replace (87 + d <=? 102) with true by (symmetry; apply N.leb_le; lia).
    simpl. f_equal. lia.
Qed.

Lemma hex_digits_value n :
  n < 65536 ->
  ((n / 4096 mod 16 * 16 + n / 256 mod 16) * 16 + n / 16 mod 16) * 16 + n mod 16 = n.
Proof.
  intros Hn.
  assert (E1 : n / 256 = n / 16 / 16) by (rewrite N.Div0.div_div; reflexivity).
  assert (E2 : n / 4096 = n / 16 / 16 / 16) by (rewrite !N.Div0.div_div; reflexivity).
  rewrite E1, E2.
  pose proof (N.div_mod n 16 ltac:(lia)) as H0.
  pose proof (N.div_mod (n / 16) 16 ltac:(lia)) as H1.
  pose proof (N.div_mod (n / 16 / 16) 16 ltac:(lia)) as H2.
  assert (H3 : n / 16 / 16 / 16 < 16).
  { rewrite <- E2. apply N.Div0.div_lt_upper_bound; lia. }
  rewrite (N.mod_small _ _ H3). lia.
Qed.

Lemma decode_format_04x n :
  n < 65536 ->
  decode_uXXXX (hexdigit (n / 4096 mod 16)) (hexdigit (n / 256 mod 16))
               (hexdigit (n / 16 mod 16)) (hexdigit (n mod 16)) = Some n.
Proof.
  intros Hn. unfold decode_uXXXX.
  rewrite !hexval_hexdigit by (apply N.mod_lt; lia).
  f_equal. by apply hex_digits_value.
Qed.

(** Bits: a multiple of [2^k] and a number below [2^k] do not overlap. *)
Lemma lor_disjoint a x k : x < 2 ^ k -> N.lor (a * 2 ^ k) x = a * 2 ^ k + x.
Proof.
  intros Hx.
  assert (Hz : N.land (a * 2 ^ k) x = 0).
  { apply N.bits_inj. intros i. rewrite N.land_spec, N.bits_0.
    destruct (N.ltb_spec i k) as [Hi|Hi].
    - by rewrite N.mul_pow2_bits_low.
    - rewrite <- (N.mod_small x (2 ^ k)) by done.
      rewrite N.mod_pow2_bits_high by done. apply andb_false_r. }
  by rewrite N.add_nocarry_lxor, N.lxor_lor.
Qed.

Lemma high_surrogate_value n :
  n < 1048576 ->
  N.lor 55296 (N.land (N.shiftr n 10) 1023) = 55296 + n / 1024.
Proof.
  intros Hn. change 1023 with (N.ones 10).
  rewrite N.land_ones, N.shiftr_div_pow2. change (2 ^ 10) with 1024.
  assert (n / 1024 < 1024) by (apply N.Div0.div_lt_upper_bound; lia).
  rewrite N.mod_small by done.
  change 55296 with (54 * 2 ^ 10). apply lor_disjoint. by change (2 ^ 10) with 1024.
Qed.

Lemma low_surrogate_value n :
  N.lor 56320 (N.land n 1023) = 56320 + n mod 1024.
Proof.
  change 1023 with (N.ones 10). rewrite N.land_ones. change (2 ^ 10) with 1024.
  change 56320 with (55 * 2 ^ 10). apply lor_disjoint.
  change (2 ^ 10) with 1024. apply N.mod_lt. lia.
Qed.

Lemma join_surrogates n :
  65536 + N.lor (N.shiftl (55296 + n / 1024 - 55296) 10)
                (56320 + n mod 1024 - 56320) = 65536 + n.
Proof.
  rewrite (N.add_comm 55296), (N.add_comm 56320), !N.add_sub.
  rewrite N.shiftl_mul_pow2, lor_disjoint.
  - change (2 ^ 10) with 1024. pose proof (N.div_mod n 1024 ltac:(lia)). lia.
  - change (2 ^ 10) with 1024. apply N.mod_lt. lia.
Qed.

(** Unfoldings of [scanstring] on the shapes the encoder produces. *)
Lemma scanstring_plain c r :
  (c =? QUOTE) = false -> (c =? BACKSLASH) = false -> (c <? 32) = false ->
  scanstring (c :: r) = emit c (scanstring r).
Proof. intros H1 H2 H3. simpl. by rewrite H1, H2, H3. Qed.

Lemma scanstring_short e ch r :
  (e =? 117) = false -> unescape e = Some ch ->
  scanstring (BACKSLASH :: e :: r) = emit ch (scanstring r).
Proof. intros H1 H2. simpl. by rewrite H1, H2. Qed.

Lemma scanstring_u_escape n r :
  n < 65536 -> (55296 <=? n) && (n <=? 56319) = false ->
  scanstring (u_escape n ++ r) = emit n (scanstring r).
Proof.
  intros Hn Hhigh. unfold u_escape, format_04x.
  cbn [app]. cbn [scanstring]. cbn [N.eqb Pos.eqb].
  by rewrite decode_format_04x, Hhigh.
Qed.

Lemma scanstring_pair hi lo r :
  hi < 65536 -> lo < 65536 ->
  (55296 <=? hi) && (hi <=? 56319) = true ->
  (56320 <=? lo) && (lo <=? 57343) = true ->
  scanstring (u_escape hi ++ u_escape lo ++ r) =
  emit (65536 + N.lor (N.shiftl (hi - 55296) 10) (lo - 56320)) (scanstring r).
Proof.
  intros Hhi Hlo Hhigh Hlow. unfold u_escape, format_04x.
  cbn [app]. cbn [scanstring]. cbn [N.eqb Pos.eqb andb].
  by rewrite !decode_format_04x, Hhigh, Hlow.
Qed.
Lemma short_escape_cases c e :
  short_escape c = Some e ->
  (c, e) = (BACKSLASH, BACKSLASH) \/ (c, e) = (QUOTE, QUOTE) \/ (c, e) = (8, 98) \/
  (c, e) = (12, 102) \/ (c, e) = (10, 110) \/ (c, e) = (13, 114) \/ (c, e) = (9, 116).
Proof.
  unfold short_escape.
  repeat match goal with
         | |- context [N.eqb c ?k] =>
             destruct (N.eqb_spec c k) as [->|?]; [intros [= <-]; tauto|]
         end.
  discriminate.
Qed.

Lemma short_escape_none c :
  short_escape c = None -> (c =? QUOTE) = false /\ (c =? BACKSLASH) = false.
Proof.
  unfold short_escape.
  destruct (N.eqb_spec c BACKSLASH); [discriminate|].
  destruct (N.eqb_spec c QUOTE); [discriminate|]. done.
Qed.

(** One character: the scanner reads back what the encoder wrote. *)
Lemma scanstring_escape_char ea c r :
  (ea = true -> scalar c) ->
  scanstring (escape_char ea c ++ r) = emit c (scanstring r).
Proof.
  intros Hc. unfold escape_char.
  destruct (short_escape c) as [e|] eqn:E.
  - apply short_escape_cases in E.
    destruct E as [E|[E|[E|[E|[E|[E|E]]]]]]; injection E as -> ->; reflexivity.
  - apply short_escape_none in E as [Hq Hb].
    destruct (N.ltb_spec c 32) as [Hlt|Hge].
    + apply scanstring_u_escape; [lia|].
      apply andb_false_iff; left; apply N.leb_gt; lia.
    + destruct (negb ea || (c <=? 126)) eqn:Hplain.
      * apply scanstring_plain; [done..|]. apply N.ltb_ge; lia.
      * apply orb_false_iff in Hplain as [Hea Hc126].
        apply negb_false_iff in Hea. specialize (Hc Hea).
        destruct (N.ltb_spec c 65536) as [Hbmp|Hsup].
        -- apply scanstring_u_escape; [done|].
           destruct Hc as [?|[? ?]].
           ++ apply andb_false_iff; left; apply N.leb_gt; lia.
           ++ apply andb_false_iff; right; apply N.leb_gt; lia.
        -- cbv zeta. destruct Hc as [?|[_ Hmax]]; [lia|].
           assert (Hn : c - 65536 < 1048576) by lia.
           rewrite high_surrogate_value by done.
           rewrite low_surrogate_value.
           assert ((c - 65536) / 1024 < 1024)
             by (apply N.Div0.div_lt_upper_bound; lia).
           assert ((c - 65536) mod 1024 < 1024) by (apply N.mod_lt; lia).
           rewrite <- app_assoc, scanstring_pair.
           ++ rewrite join_surrogates. f_equal. lia.
           ++ generalize dependent ((c - 65536) / 1024). intros; lia.
           ++ generalize dependent ((c - 65536) mod 1024). intros; lia.
           ++ generalize dependent ((c - 65536) / 1024). intros.
              apply andb_true_iff; split; apply N.leb_le; lia.
           ++ generalize dependent ((c - 65536) mod 1024). intros.
              apply andb_true_iff; split; apply N.leb_le; lia.
Qed.

Lemma scanstring_encode ea s r :
  (ea = true -> Forall scalar s) ->
  scanstring (flat_map (escape_char ea) s ++ QUOTE :: r) = Some (s, r).
Proof.
  induction s as [|c s IH]; intros Hs; [reflexivity|].
  cbn [flat_map]. rewrite <- app_assoc, scanstring_escape_char.
  - rewrite IH; [reflexivity|]. intros Hea. specialize (Hs Hea).
    by apply Forall_cons in Hs as [_ ?].
  - intros Hea. specialize (Hs Hea). by apply Forall_cons in Hs as [? _].
Qed.
(** ** The ASCII-only encoding of arbitrary text *)

Lemma high_unit y : N.lor 55296 (N.land y 1023) = 55296 + y mod 1024.
Proof.
  change 1023 with (N.ones 10). rewrite N.land_ones. change (2 ^ 10) with 1024.
  change 55296 with (54 * 2 ^ 10). apply lor_disjoint.
  change (2 ^ 10) with 1024. apply N.mod_lt. lia.
Qed.

Lemma low_unit y : N.lor 56320 (N.land y 1023) = 56320 + y mod 1024.
Proof. apply low_surrogate_value. Qed.

Lemma units_bounded c : Forall (fun u => u < 65536) (units c).
Proof.
  unfold units. destruct (N.ltb_spec c 65536); [by repeat constructor|].
  rewrite high_unit, low_unit.
  assert (forall y, y mod 1024 < 1024) as Hmod by (intros; apply N.mod_lt; lia).
  repeat constructor.
  - specialize (Hmod (N.shiftr (c - 65536) 10)).
    generalize dependent (N.shiftr (c - 65536) 10 mod 1024). intros. lia.
  - specialize (Hmod (c - 65536)).
    generalize dependent ((c - 65536) mod 1024). intros. lia.
Qed.

Lemma escape_char_beyond_ascii u :
  126 < u -> u < 65536 -> escape_char true u = u_escape u.
Proof.
  intros Hlo Hhi. unfold escape_char, short_escape.
  repeat match goal with
         | |- context [N.eqb u ?k] => destruct (N.eqb_spec u k); [lia|]
         end.
  destruct (N.ltb_spec u 32); [lia|].
  destruct (N.leb_spec u 126); [lia|]. cbn [negb orb].
  by destruct (N.ltb_spec u 65536); [|lia].
Qed.

Lemma escape_char_units c :
  escape_char true c = flat_map (escape_char true) (units c).
Proof.
  pose proof (units_bounded c) as Hu. revert Hu. unfold units.
  destruct (N.ltb_spec c 65536) as [Hc|Hc]; intros Hu.
  - cbn [flat_map]. by rewrite app_nil_r.
  - cbn [flat_map]. rewrite app_nil_r.
    apply Forall_cons in Hu as [H1 Hu]. apply Forall_cons in Hu as [H2 _].
    assert (Hpair : escape_char true c =
              u_escape (N.lor 55296 (N.land (N.shiftr (c - 65536) 10) 1023)) ++
              u_escape (N.lor 56320 (N.land (c - 65536) 1023))).
    { unfold escape_char, short_escape.
      repeat match goal with
             | |- context [N.eqb c ?k] => destruct (N.eqb_spec c k); [lia|]
             end.
      destruct (N.ltb_spec c 32); [lia|].
      destruct (N.leb_spec c 126); [lia|]. cbn [negb orb].
      by destruct (N.ltb_spec c 65536); [lia|]. }
    rewrite Hpair. revert H1 H2. rewrite high_unit, low_unit. intros H1 H2.
    rewrite !escape_char_beyond_ascii; try done.
    + generalize ((c - 65536) mod 1024). intros. lia.
    + generalize (N.shiftr (c - 65536) 10 mod 1024). intros. lia.
Qed.

Lemma scanstring_escape_unit u r :
  u < 65536 -> is_high u = false ->
  scanstring (escape_char true u ++ r) = emit u (scanstring r).
Proof.
  intros Hu Hhigh. unfold escape_char.
  destruct (short_escape u) as [e|] eqn:E.
  - apply short_escape_cases in E.
    destruct E as [E|[E|[E|[E|[E|[E|E]]]]]]; injection E as -> ->; reflexivity.
  - apply short_escape_none in E as [Hq Hb].
    destruct (N.ltb_spec u 32) as [Hlt|Hge]; [by apply scanstring_u_escape|].
    destruct (negb true || (u <=? 126)) eqn:Hplain.
    + apply scanstring_plain; [done..|]. apply N.ltb_ge; lia.
    + destruct (N.ltb_spec u 65536); [|lia]. by apply scanstring_u_escape.
Qed.

Lemma scanstring_high_alone n r5 :
  n < 65536 -> is_high n = true ->
  match r5 with
  | b1 :: u1 :: _ => (b1 =? BACKSLASH) && (u1 =? 117)
  | _ => false
  end = false ->
  scanstring (u_escape n ++ r5) = emit n (scanstring r5).
Proof.
  intros Hn Hhigh Hnext. unfold u_escape, format_04x.
  cbn [app]. cbn [scanstring]. cbn [N.eqb Pos.eqb].
  rewrite decode_format_04x by done. unfold is_high in Hhigh. rewrite Hhigh.
  destruct r5 as [|b1 [|u1 [|a2 [|b2 [|c2 [|d2 r11]]]]]]; try reflexivity.
  by rewrite Hnext.
Qed.

Lemma scanstring_high_then_unit n m r :
  n < 65536 -> m < 65536 -> is_high n = true -> is_low m = false ->
  scanstring (u_escape n ++ u_escape m ++ r) = emit n (scanstring (u_escape m ++ r)).
Proof.
  intros Hn Hm Hhigh Hlow.
  remember (scanstring (u_escape m ++ r)) as rest eqn:Hrest.
  unfold u_escape at 1. unfold format_04x at 1. cbn [app]. cbn [scanstring].
  cbn [N.eqb Pos.eqb]. rewrite decode_format_04x by done.
  unfold is_high in Hhigh. rewrite Hhigh. rewrite <- Hrest.
  unfold u_escape, format_04x. cbn [app]. cbn [N.eqb Pos.eqb andb].
  rewrite decode_format_04x by done. unfold is_low in Hlow. by rewrite Hlow.
Qed.

(** what follows a high surrogate unit: either another [\uXXXX] or
    something the scanner does not take for one *)
Lemma escape_unit_shape m :
  m < 65536 ->
  escape_char true m = u_escape m \/
  forall r, match escape_char true m ++ r with
            | b1 :: u1 :: _ => (b1 =? BACKSLASH) && (u1 =? 117)
            | _ => false
            end = false.
Proof.
  intros Hm. unfold escape_char.
  destruct (short_escape m) as [e|] eqn:E.
  - right. intros r. apply short_escape_cases in E.
    destruct E as [E|[E|[E|[E|[E|[E|E]]]]]]; injection E as -> ->; reflexivity.
  - apply short_escape_none in E as [Hq Hb].
    destruct (N.ltb_spec m 32); [by left|].
    destruct (negb true || (m <=? 126)).
    + right. intros r. cbn [app]. destruct r; [done|]. by rewrite Hb.
    + left. by destruct (N.ltb_spec m 65536); [|lia].
Qed.

Lemma join_units_not_high u tl :
  is_high u = false -> join_units (u :: tl) = u :: join_units tl.
Proof. intros H. destruct tl; cbn [join_units]; [done|]. by rewrite H. Qed.

Lemma join_units_high_other hi lo r :
  is_low lo = false -> join_units (hi :: lo :: r) = hi :: join_units (lo :: r).
Proof. intros H. cbn [join_units]. by rewrite H, andb_false_r. Qed.

Lemma join_units_pair hi lo r :
  is_high hi = true -> is_low lo = true ->
  join_units (hi :: lo :: r) =
  65536 + N.lor (N.shiftl (hi - 55296) 10) (lo - 56320) :: join_units r.
Proof. intros H1 H2. cbn [join_units]. by rewrite H1, H2. Qed.

Lemma is_low_beyond_ascii u : is_low u = true -> 126 < u.
Proof.
  unfold is_low. intros H. apply andb_true_iff in H as [H _].
  apply N.leb_le in H. lia.
Qed.

Lemma is_high_beyond_ascii u : is_high u = true -> 126 < u.
Proof.
  unfold is_high. intros H. apply andb_true_iff in H as [H _].
  apply N.leb_le in H. lia.
Qed.

(** The scanner reads the encoded units back, joining surrogate pairs. *)
Lemma scanstring_units n :
  forall l r,
    (length l <= n)%nat -> Forall (fun u => u < 65536) l ->
    scanstring (flat_map (escape_char true) l ++ QUOTE :: r) = Some (join_units l, r).
Proof.
  induction n as [|n IH]; intros l r Hlen Hall.
  - destruct l; [reflexivity|cbn in Hlen; lia].
  - destruct l as [|u tl]; [reflexivity|].
    apply Forall_cons in Hall as [Hu Htl]. cbn [length] in Hlen.
    cbn [flat_map]. rewrite <- app_assoc.
    destruct (is_high u) eqn:Hhigh.
    + rewrite (escape_char_beyond_ascii u (is_high_beyond_ascii u Hhigh) Hu).
      destruct tl as [|lo tl'].
      * cbn [flat_map app].
        rewrite scanstring_high_alone; [reflexivity|done|done|by destruct r].
      * apply Forall_cons in Htl as [Hlo Htl']. cbn [length] in Hlen.
        cbn [flat_map]. rewrite <- app_assoc.
        destruct (is_low lo) eqn:Hlow.
        -- rewrite (escape_char_beyond_ascii lo (is_low_beyond_ascii lo Hlow) Hlo).
           rewrite scanstring_pair by done.
           rewrite IH by (done || lia). by rewrite join_units_pair.
        -- rewrite join_units_high_other by done.
           assert (Hrest : scanstring (escape_char true lo ++
                      flat_map (escape_char true) tl' ++ QUOTE :: r)
                    = Some (join_units (lo :: tl'), r)).
           { rewrite app_assoc. apply (IH (lo :: tl') r); [cbn; lia|].
             by constructor. }
           destruct (escape_unit_shape lo Hlo) as [Hesc|Hesc].
           ++ rewrite Hesc in *. rewrite scanstring_high_then_unit by done.
              by rewrite Hrest.
           ++ rewrite scanstring_high_alone by done. by rewrite Hrest.
    + rewrite scanstring_escape_unit by done.
      rewrite IH by (done || lia). by rewrite join_units_not_high.
Qed.

Lemma flat_map_escape_units s :
  flat_map (escape_char true) s = flat_map (escape_char true) (flat_map units s).
Proof.
  induction s as [|c s IH]; [done|]. cbn [flat_map].
  by rewrite flat_map_app, <- escape_char_units, IH.
Qed.

Lemma flat_map_units_bounded s : Forall (fun u => u < 65536) (flat_map units s).
Proof.
  induction s as [|c s IH]; [constructor|]. cbn [flat_map].
  apply Forall_app. split; [apply units_bounded|done].
Qed.

(** What the scanner reads back from an encoded string, in general. *)
Lemma scanstring_reread ea s r :
  scanstring (flat_map (escape_char ea) s ++ QUOTE :: r) = Some (reread ea s, r).
Proof.
  destruct ea; cbn [reread].
  - rewrite flat_map_escape_units.
    apply (scanstring_units (length (flat_map units s))); [done|].
    apply flat_map_units_bounded.
  - by apply scanstring_encode.
Qed.

(** Text of scalar values is read back as it was. *)
Lemma reread_scalar ea s : (ea = true -> Forall scalar s) -> reread ea s = s.
Proof.
  destruct ea; [|done]. intros Hs. specialize (Hs eq_refl). cbn [reread].
  induction Hs as [|c s Hc _ IH]; [done|]. cbn [flat_map]. unfold units at 1.
  destruct (N.ltb_spec c 65536) as [Hbmp|Hsup].
  - cbn [app]. rewrite join_units_not_high; [by rewrite IH|].
    unfold is_high. destruct Hc as [?|[? ?]].
    + apply andb_false_iff; left; apply N.leb_gt; lia.
    + apply andb_false_iff; right; apply N.leb_gt; lia.
  - destruct Hc as [?|[_ Hmax]]; [lia|].
    assert (Hn : c - 65536 < 1048576) by lia.
    rewrite high_surrogate_value by done. rewrite low_surrogate_value.
    assert ((c - 65536) / 1024 < 1024) by (apply N.Div0.div_lt_upper_bound; lia).
    assert ((c - 65536) mod 1024 < 1024) by (apply N.mod_lt; lia).
    cbn [app]. rewrite join_units_pair.
    + rewrite join_surrogates by done. rewrite IH. f_equal. lia.
    + generalize dependent ((c - 65536) / 1024). intros. unfold is_high.
      apply andb_true_iff; split; apply N.leb_le; lia.
    + generalize dependent ((c - 65536) mod 1024). intros. unfold is_low.
      apply andb_true_iff; split; apply N.leb_le; lia.
Qed.
End Strings.

Section Values.
Local Open Scope N_scope.
Variable ea : bool.

Abbreviation dumps := (json_dumps ea).
Abbreviation reads_back := (reads_back ea).

Lemma join_cons sep p ps :
  join sep (p :: ps) = p ++ flat_map (fun q => sep ++ q) ps.
Proof.
  revert p. induction ps as [|q ps IH]; intros p.
  - by rewrite app_nil_r.
  - change (join sep (p :: q :: ps)) with (p ++ sep ++ join sep (q :: ps)).
    rewrite IH. cbn [flat_map]. by rewrite <- !app_assoc.
Qed.

Lemma flat_map_of_map {A B C} (f : B -> list C) (g : A -> B) l :
  flat_map f (map g l) = flat_map (fun a => f (g a)) l.
Proof. induction l as [|a l IH]; [done|]. cbn. by rewrite IH. Qed.

Lemma json_dumps_list x items :
  dumps (PList (x :: items)) =
  91 :: dumps x ++ flat_map (fun y => 44 :: 32 :: dumps y) items ++ [93].
Proof.
  cbn [json_dumps]. rewrite map_cons, join_cons, flat_map_of_map.
  change (text "[") with [91]. change (text "]") with [93].
  cbn [app]. by rewrite <- app_assoc.
Qed.

Lemma json_dumps_dict k v pairs :
  dumps (PDict ((k, v) :: pairs)) =
  123 :: QUOTE :: flat_map (escape_char ea) k ++ QUOTE :: 58 :: 32 :: dumps v ++
  flat_map (fun kv => 44 :: 32 :: QUOTE :: flat_map (escape_char ea) kv.1 ++
                      QUOTE :: 58 :: 32 :: dumps kv.2) pairs ++ [125].
Proof.
  cbn [json_dumps]. rewrite map_cons, join_cons, flat_map_of_map.
  change (text "{") with [123]. change (text "}") with [125].
  cbn [app fst snd]. unfold encode_basestring. cbn [app].
  rewrite <- !app_assoc. cbn [app].
  change (text ": ") with [58; 32]. cbn [app]. do 6 f_equal.
  f_equal. f_equal.
  induction pairs as [|kv pairs IH]; [done|].
  cbn [flat_map]. rewrite IH. change (text ", ") with [44; 32].
  change (text ": ") with [58; 32]. cbn [app]. by rewrite <- !app_assoc.
Qed.
(** A serialized value starts with the character that tells its kind. *)
Lemma json_dumps_head v :
  exists c t, dumps v = c :: t /\ (c = 110 \/ c = QUOTE \/ c = 91 \/ c = 123).
Proof.
  destruct v as [|s|items|pairs]; cbn [json_dumps]; unfold encode_basestring;
    eexists _, _; (split; [reflexivity|]); tauto.
Qed.

Lemma skip_ws_dumps v r : skip_ws (dumps v ++ r) = dumps v ++ r.
Proof.
  destruct (json_dumps_head v) as (c & t & E & Hc); rewrite E.
  cbn [app skip_ws].
  by destruct Hc as [-> | [-> | [-> | ->]]].
Qed.

(** Unfoldings of the scanner, one per kind of value. *)
Lemma scan_once_string fuel r :
  scan_once (S fuel) (QUOTE :: r) = (fun p => (PStr p.1, p.2)) <$> scanstring r.
Proof. reflexivity. Qed.

Lemma scan_once_null fuel r :
  scan_once (S fuel) (text "null" ++ r) = Some (PNone, r).
Proof. reflexivity. Qed.

Lemma scan_once_empty_array fuel r :
  scan_once (S fuel) (91 :: 93 :: r) = Some (PList [], r).
Proof. reflexivity. Qed.

Lemma scan_once_array fuel v r :
  scan_once (S fuel) (91 :: dumps v ++ r) =
  (fun p => (PList p.1, p.2)) <$> JSONArray fuel (dumps v ++ r).
Proof.
  destruct (json_dumps_head v) as (c & t & E & Hc); rewrite E.
  by destruct Hc as [-> | [-> | [-> | ->]]].
Qed.

Lemma scan_once_empty_object fuel r :
  scan_once (S fuel) (123 :: 125 :: r) = Some (PDict [], r).
Proof. reflexivity. Qed.

Lemma scan_once_object fuel r :
  scan_once (S fuel) (123 :: QUOTE :: r) =
  (fun p => (PDict (dict_of_pairs p.1), p.2)) <$> JSONObject fuel r.
Proof. reflexivity. Qed.

Lemma JSONArray_last fuel s v r :
  scan_once fuel s = Some (v, 93 :: r) ->
  JSONArray (S fuel) s = Some ([v], r).
Proof. intros H. cbn [JSONArray]. by rewrite H. Qed.

Lemma JSONArray_more fuel s v w r :
  scan_once fuel s = Some (v, 44 :: 32 :: dumps w ++ r) ->
  JSONArray (S fuel) s =
  (fun p => (v :: p.1, p.2)) <$> JSONArray fuel (dumps w ++ r).
Proof.
  intros H. cbn [JSONArray]. rewrite H.
  change (skip_ws (44 :: 32 :: dumps w ++ r)) with (44 :: 32 :: dumps w ++ r).
  cbn [N.eqb Pos.eqb].
  change (skip_ws (32 :: dumps w ++ r)) with (skip_ws (dumps w ++ r)).
  by rewrite skip_ws_dumps.
Qed.

Lemma JSONObject_last fuel s k v v' r :
  scanstring s = Some (k, 58 :: 32 :: dumps v ++ 125 :: r) ->
  scan_once fuel (dumps v ++ 125 :: r) = Some (v', 125 :: r) ->
  JSONObject (S fuel) s = Some ([(k, v')], r).
Proof.
  intros Hk Hv. cbn [JSONObject]. rewrite Hk.
  change (skip_ws (58 :: 32 :: ?t)) with (58 :: 32 :: t).
  cbn [N.eqb Pos.eqb].
  change (skip_ws (32 :: dumps v ++ 125 :: r)) with (skip_ws (dumps v ++ 125 :: r)).
  by rewrite skip_ws_dumps, Hv.
Qed.

Lemma JSONObject_more fuel s k v v' r :
  scanstring s = Some (k, 58 :: 32 :: dumps v ++ 44 :: 32 :: QUOTE :: r) ->
  scan_once fuel (dumps v ++ 44 :: 32 :: QUOTE :: r) = Some (v', 44 :: 32 :: QUOTE :: r) ->
  JSONObject (S fuel) s =
  (fun p => ((k, v') :: p.1, p.2)) <$> JSONObject fuel r.
Proof.
  intros Hk Hv. cbn [JSONObject]. rewrite Hk.
  change (skip_ws (58 :: 32 :: ?t)) with (58 :: 32 :: t).
  cbn [N.eqb Pos.eqb].
  change (skip_ws (32 :: dumps v ++ ?t)) with (skip_ws (dumps v ++ t)).
  by rewrite skip_ws_dumps, Hv.
Qed.

Lemma JSONArray_items rest :
  forall x fuel r,
    Forall reads_back (x :: rest) ->
    (foldr (fun y acc => S (weight y) + acc) 0 (x :: rest) <= fuel)%nat ->
    JSONArray fuel (dumps x ++ flat_map (fun y => 44 :: 32 :: dumps y) rest ++ 93 :: r)
    = Some (map (reread_val ea) (x :: rest), r).
Proof.
  induction rest as [|y rest IH]; intros x fuel r Hall Hfuel;
    apply Forall_cons in Hall as [Hx Hrest];
    (destruct fuel as [|fuel]; [cbn in Hfuel; lia|]); cbn [foldr] in Hfuel.
  - apply JSONArray_last. cbn [flat_map app]. apply Hx. lia.
  - cbn [flat_map app]. rewrite <- app_assoc.
    erewrite JSONArray_more by (apply Hx; lia).
    rewrite IH; [done|done|]. cbn [foldr]. lia.
Qed.

Lemma JSONObject_members pairs :
  forall k v fuel r,
    (ea = true -> Forall scalar k) -> reads_back v ->
    Forall (fun kv => (ea = true -> Forall scalar kv.1) /\ reads_back kv.2) pairs ->
    (foldr (fun kv acc => S (weight kv.2) + acc) 0 ((k, v) :: pairs) <= fuel)%nat ->
    JSONObject fuel
      (flat_map (escape_char ea) k ++ QUOTE :: 58 :: 32 :: dumps v ++
       flat_map (fun kv => 44 :: 32 :: QUOTE :: flat_map (escape_char ea) kv.1 ++
                           QUOTE :: 58 :: 32 :: dumps kv.2) pairs ++ 125 :: r)
    = Some (map (fun kv => (kv.1, reread_val ea kv.2)) ((k, v) :: pairs), r).
Proof.
  induction pairs as [|[k' v'] pairs IH]; intros k v fuel r Hk Hv Hall Hfuel;
    (destruct fuel as [|fuel]; [cbn in Hfuel; lia|]); cbn [foldr snd] in Hfuel.
  - cbn [flat_map app]. eapply JSONObject_last.
    + by apply scanstring_encode.
    + apply Hv. lia.
  - apply Forall_cons in Hall as [[Hk' Hv'] Hall]. cbn [fst snd] in Hk', Hv'.
    cbn [flat_map fst snd]. cbn [app]. repeat (rewrite <- app_assoc; cbn [app]).
    erewrite JSONObject_more.
    + rewrite IH; [done|done|done|done|]. cbn [foldr snd]. lia.
    + by apply scanstring_encode.
    + apply Hv. lia.
Qed.

(** [dict(pairs)] of pairs with distinct keys is the pairs themselves. *)
Lemma dict_setitem_fresh k v d :
  k ∉ d.*1 -> dict_setitem k v d = d ++ [(k, v)].
Proof.
  induction d as [|[k' v'] d IH]; intros Hk; [done|].
  cbn [dict_setitem]. rewrite fmap_cons in Hk. cbn [fst] in Hk.
  apply not_elem_of_cons in Hk as [Hne Hk].
  destruct (decide (k' = k)) as [->|_]; [done|]. by rewrite IH.
Qed.

Lemma dict_of_pairs_from acc pairs :
  NoDup (acc ++ pairs).*1 ->
  foldl (fun d kv => dict_setitem kv.1 kv.2 d) acc pairs = acc ++ pairs.
Proof.
  revert acc. induction pairs as [|[k v] pairs IH]; intros acc Hnd.
  - by rewrite app_nil_r.
  - cbn [foldl fst snd]. rewrite dict_setitem_fresh.
    + rewrite IH; rewrite <- app_assoc; done.
    + rewrite fmap_app in Hnd. apply NoDup_app in Hnd as (_ & Hdisj & _).
      intros Hin. apply (Hdisj k Hin). rewrite fmap_cons. apply elem_of_cons. by left.
Qed.

Lemma dict_of_pairs_nodup pairs : NoDup pairs.*1 -> dict_of_pairs pairs = pairs.
Proof. intros H. unfold dict_of_pairs. by rewrite dict_of_pairs_from. Qed.

Lemma fst_reread_pairs (pairs : list (pystr * pyval)) :
  (map (fun kv => (kv.1, reread_val ea kv.2)) pairs).*1 = pairs.*1.
Proof. induction pairs as [|[k v] pairs IH]; [done|]. cbn. by f_equal. Qed.

(** The scanner reads every value with sound keys back. *)
Lemma scan_once_dumps v : keys_ok ea v -> reads_back v.
Proof.
  induction v as [|s|items IH|pairs IH] using pyval_nested_ind;
    intros Hwf fuel r Hfuel; inversion Hwf; subst;
    (destruct fuel as [|fuel]; [cbn in Hfuel; lia|]).
  - apply scan_once_null.
  - cbn [json_dumps reread_val]. unfold encode_basestring. cbn [app].
    rewrite scan_once_string, <- app_assoc. cbn [app].
    by rewrite scanstring_reread.
  - destruct items as [|x items]; [apply scan_once_empty_array|].
    rewrite json_dumps_list. cbn [app]. rewrite <- !app_assoc. cbn [app].
    rewrite scan_once_array, JSONArray_items.
    + done.
    + eapply Forall_impl; [apply Forall_and; split; [exact IH|eassumption]|].
      intros y [Hy Hwfy]. by apply Hy.
    + cbn [weight] in Hfuel. lia.
  - destruct pairs as [|[k v] pairs]; [apply scan_once_empty_object|].
    rewrite json_dumps_dict. cbn [app]. rewrite <- !app_assoc. cbn [app].
    rewrite <- !app_assoc. cbn [app].
    match goal with H : Forall _ (_ :: _) |- _ =>
      apply Forall_cons in H as [[Hk Hv] Hall] end.
    apply Forall_cons in IH as [IHv IH]. cbn [fst snd] in *.
    rewrite scan_once_object, JSONObject_members;
      cbn [fmap option_fmap option_map fst snd].
    + rewrite dict_of_pairs_nodup; [done|]. by rewrite fst_reread_pairs.
    + done.
    + by apply IHv.
    + eapply Forall_impl; [apply Forall_and; split; [exact IH|exact Hall]|].
      intros kv [Hy [? ?]]. split; [done|]. by apply Hy.
    + cbn [weight] in Hfuel. lia.
Qed.

(** The fuel [json_loads] supplies is enough. *)
Lemma length_flat_map_ge {A} (f : A -> pystr) (g : A -> nat) (l : list A) :
  Forall (fun a => (g a <= length (f a))%nat) l ->
  (foldr (fun a acc => g a + acc)%nat 0%nat l <= length (flat_map f l))%nat.
Proof.
  induction 1 as [|a l Ha _ IH]; [done|].
  cbn [foldr flat_map]. rewrite length_app. lia.
Qed.

Lemma weight_lt_length v : (weight v < length (dumps v))%nat.
Proof.
  induction v as [|s|items IH|pairs IH] using pyval_nested_ind.
  - cbn. lia.
  - cbn [json_dumps weight]. unfold encode_basestring.
    cbn [length]. rewrite length_app. cbn. lia.
  - destruct items as [|x items]; [cbn; lia|].
    rewrite json_dumps_list. apply Forall_cons in IH as [Hx IH].
    cbn [weight foldr length]. rewrite !length_app.
    pose proof (length_flat_map_ge (fun y => 44 :: 32 :: dumps y)
                  (fun y => S (weight y)) items) as Hsum.
    cbn [length] in *. cbn beta in Hsum.
    assert (Hall : Forall (fun a => (S (weight a) <= S (S (length (dumps a))))%nat) items).
    { eapply Forall_impl; [exact IH|]. cbn beta. intros; lia. }
    specialize (Hsum Hall). lia.
  - destruct pairs as [|[k v] pairs]; [cbn; lia|].
    rewrite json_dumps_dict. apply Forall_cons in IH as [Hv IH]. cbn [snd] in Hv.
    cbn [weight foldr length snd]. rewrite !length_app. cbn [length].
    rewrite !length_app.
    pose proof (length_flat_map_ge
                  (fun kv : pystr * pyval =>
                     44 :: 32 :: QUOTE :: flat_map (escape_char ea) kv.1 ++
                     QUOTE :: 58 :: 32 :: dumps kv.2)
                  (fun kv => S (weight kv.2)) pairs) as Hsum.
    cbn beta in Hsum.
    match type of Hsum with ?A -> _ => assert (Hall : A) end.
    { eapply Forall_impl; [exact IH|]. cbn beta. intros kv Hkv.
      cbn [length]. rewrite length_app. cbn [length]. lia. }
    specialize (Hsum Hall). lia.
Qed.

(** [json.loads(json.dumps(v))] is [v] as the scanner reads it back. *)
Lemma json_loads_dumps v :
  keys_ok ea v -> json_loads (dumps v) = Some (reread_val ea v).
Proof.
  intros Hok. unfold json_loads.
  rewrite <- (app_nil_r (dumps v)) at 2. rewrite skip_ws_dumps.
  rewrite (scan_once_dumps v Hok); [done|].
  pose proof (weight_lt_length v). lia.
Qed.

Lemma well_formed_keys_ok v : well_formed ea v -> keys_ok ea v.
Proof.
  induction v as [|s|items IH|pairs IH] using pyval_nested_ind;
    intros Hwf; inversion Hwf; subst; constructor; try done.
  - eapply Forall_impl; [apply Forall_and; split; [exact IH|eassumption]|].
    intros y [Hy Hwfy]. by apply Hy.
  - eapply Forall_impl; [apply Forall_and; split; [exact IH|eassumption]|].
    intros kv [Hy [? ?]]. split; [done|]. by apply Hy.
Qed.

Lemma reread_val_well_formed v : well_formed ea v -> reread_val ea v = v.
Proof.
  induction v as [|s|items IH|pairs IH] using pyval_nested_ind;
    intros Hwf; inversion Hwf; subst; clear Hwf; cbn [reread_val].
  - done.
  - by rewrite reread_scalar.
  - f_equal. match goal with H : Forall (well_formed ea) _ |- _ => revert H end.
    induction IH as [|x items Hx _ IHitems]; intros Hall; [done|].
    apply Forall_cons in Hall as [Hwx Hall]. cbn [map].
    rewrite Hx by done. by rewrite IHitems.
  - f_equal. match goal with H : Forall _ pairs |- _ => revert H end.
    match goal with H : NoDup _ |- _ => clear H end.
    induction IH as [|[k x] pairs Hx _ IHpairs]; intros Hall; [done|].
    apply Forall_cons in Hall as [[_ Hwx] Hall]. cbn [map fst snd] in *.
    rewrite Hx by done. by rewrite IHpairs.
Qed.

(** [json.loads(json.dumps(v)) == v] *)
Lemma json_roundtrip v : well_formed ea v -> json_loads (dumps v) = Some v.
Proof.
  intros Hwf. rewrite json_loads_dumps by by apply well_formed_keys_ok.
  by rewrite reread_val_well_formed.
Qed.
End Values.

(** ** Without [ensure_ascii], text beyond ASCII is written as it is *)

Section NonAscii.
Local Open Scope N_scope.

Lemma hexdigit_ascii d : d < 16 -> non_ascii (hexdigit d) = false.
Proof.
  intros Hd. unfold non_ascii, hexdigit. apply N.leb_gt.
  destruct (d <? 10); lia.
Qed.

Lemma u_escape_ascii n : List.filter non_ascii (u_escape n) = [].
Proof.
  unfold u_escape, format_04x. cbn [List.filter].
  rewrite !hexdigit_ascii by (apply N.mod_lt; lia). reflexivity.
Qed.

Lemma escape_char_keeps_non_ascii c :
  List.filter non_ascii (escape_char false c) = List.filter non_ascii [c].
Proof.
  unfold escape_char. destruct (short_escape c) as [e|] eqn:E.
  - apply short_escape_cases in E.
    destruct E as [E|[E|[E|[E|[E|[E|E]]]]]]; injection E as -> ->; reflexivity.
  - destruct (N.ltb_spec c 32) as [Hlt|Hge].
    + rewrite u_escape_ascii. cbn [List.filter]. unfold non_ascii.
      by replace (128 <=? c) with false by (symmetry; apply N.leb_gt; lia).
    + reflexivity.
Qed.

(** a character beyond ASCII is its own, unescaped, encoding *)
Lemma escape_char_non_ascii c : 128 <= c -> escape_char false c = [c].
Proof.
  intros Hc. unfold escape_char, short_escape.
  repeat match goal with
         | |- context [N.eqb c ?k] => destruct (N.eqb_spec c k); [lia|]
         end.
  destruct (N.ltb_spec c 32); [lia|]. reflexivity.
Qed.

Lemma filter_flat_map {A} (P : N -> bool) (f : A -> pystr) l :
  List.filter P (flat_map f l) = flat_map (fun a => List.filter P (f a)) l.
Proof.
  induction l as [|a l IH]; [done|]. cbn [flat_map].
  by rewrite List.filter_app, IH.
Qed.

Lemma filter_ascii_cons a l :
  non_ascii a = false -> List.filter non_ascii (a :: l) = List.filter non_ascii l.
Proof. intros H. cbn [List.filter]. by rewrite H. Qed.

Lemma string_body_keeps_non_ascii s :
  List.filter non_ascii (flat_map (escape_char false) s) = List.filter non_ascii s.
Proof.
  rewrite filter_flat_map.
  induction s as [|c s IH]; [done|].
  cbn [flat_map]. rewrite escape_char_keeps_non_ascii, IH.
  symmetry. apply (List.filter_app non_ascii [c] s).
Qed.

Lemma filter_members {A} (f g : A -> pystr) l :
  Forall (fun a => List.filter non_ascii (f a) = List.filter non_ascii (g a)) l ->
  List.filter non_ascii (flat_map f l) = List.filter non_ascii (concat (map g l)).
Proof.
  induction 1 as [|a l Ha _ IH]; [done|].
  cbn [flat_map map concat]. by rewrite !List.filter_app, Ha, IH.
Qed.

Lemma json_dumps_keeps_non_ascii v :
  List.filter non_ascii (json_dumps false v) = List.filter non_ascii (texts v).
Proof.
  induction v as [|s|items IH|pairs IH] using pyval_nested_ind.
  - reflexivity.
  - cbn [json_dumps texts]. unfold encode_basestring.
    rewrite filter_ascii_cons, List.filter_app, string_body_keeps_non_ascii by reflexivity.
    cbn. apply app_nil_r.
  - destruct items as [|x items]; [reflexivity|].
    rewrite json_dumps_list. apply Forall_cons in IH as [Hx IH].
    cbn [texts map concat].
    rewrite filter_ascii_cons, !List.filter_app, Hx by reflexivity. f_equal.
    rewrite (filter_members (fun y => 44 :: 32 :: json_dumps false y) texts).
    + cbn. apply app_nil_r.
    + eapply Forall_impl; [exact IH|]. cbn beta. intros y Hy.
      by rewrite !filter_ascii_cons by reflexivity.
  - destruct pairs as [|[k v] pairs]; [reflexivity|].
    rewrite json_dumps_dict. apply Forall_cons in IH as [Hv IH]. cbn [snd] in Hv.
    cbn [texts map concat fst snd].
    rewrite !filter_ascii_cons by reflexivity.
    rewrite List.filter_app, string_body_keeps_non_ascii.
    rewrite !filter_ascii_cons by reflexivity.
    rewrite !List.filter_app, Hv, <- app_assoc. do 2 f_equal.
    rewrite (filter_members
               (fun kv : pystr * pyval =>
                  44 :: 32 :: QUOTE :: flat_map (escape_char false) kv.1 ++
                  QUOTE :: 58 :: 32 :: json_dumps false kv.2)
               (fun kv => kv.1 ++ texts kv.2)).
    + cbn. apply app_nil_r.
    + eapply Forall_impl; [exact IH|]. cbn beta. intros kv Hkv.
      rewrite !filter_ascii_cons by reflexivity.
      rewrite List.filter_app, string_body_keeps_non_ascii.
      rewrite !filter_ascii_cons by reflexivity.
      by rewrite List.filter_app, Hkv.
Qed.
End NonAscii.

(* ===================================================================== *)
(** * One search attempt *)

Section Attempt.
Variable ddgs : provider.

Lemma add_pulls_0 s : add_pulls 0 s = s.
Proof. destruct s. unfold add_pulls. cbn. f_equal. lia. Qed.

Lemma count_pull_add_pulls n s : add_pulls n (count_pull s) = add_pulls (S n) s.
Proof. destruct s. unfold add_pulls, count_pull. cbn. f_equal. lia. Qed.

Lemma count_pull_is_add_pulls s : count_pull s = add_pulls 1 s.
Proof. by rewrite <- count_pull_add_pulls, add_pulls_0. Qed.

Lemma dict_display href body title :
  PDict (dict_of_pairs [(text "link", PStr href); (text "snippet", PStr body);
                        (text "title", PStr title)])
  = search_result href body title.
Proof. reflexivity. Qed.

(** Building one result reads the record and nothing else. *)
Lemma result_of_eq i s : result_of i s = (result_outcome i, s).
Proof.
  unfold result_of, result_outcome, bind, getitem.
  destruct (i !! text "href") as [h|]; [|reflexivity].
  destruct (i !! text "body") as [b|]; [|reflexivity].
  destruct (i !! text "title") as [t|]; reflexivity.
Qed.

(** The comprehension computes [rows] and only advances the iterator. *)
Lemma comprehension_eq rng it s :
  comprehension rng it s = (rows (length rng) it, add_pulls (pulls (length rng) it) s).
Proof.
  revert it s. induction rng as [|z rng IH]; intros it s.
  - cbn. by rewrite add_pulls_0.
  - cbn [comprehension length rows pulls]. unfold bind at 1. unfold next at 1.
    unfold bind at 1. unfold modify at 1.
    destruct it as [|[i|e] it'].
    + cbn. by rewrite count_pull_is_add_pulls.
    + unfold bind, ret. cbv beta iota. rewrite result_of_eq.
      destruct (result_outcome i) as [row|e].
      * rewrite IH. destruct (rows (length rng) it') as [rest|e];
          by rewrite count_pull_add_pulls.
      * by rewrite count_pull_is_add_pulls.
    + cbn. by rewrite count_pull_is_add_pulls.
Qed.

Lemma length_range k : length (range k) = Z.to_nat k.
Proof. unfold range. by rewrite length_fmap, length_seq. Qed.

(** [_search_from_ddgs] depends on the state only through the number of
    the provider call it makes, and changes only the two provider
    counters. *)
Lemma search_eq query max_results s :
  _search_from_ddgs ddgs query max_results s =
  (search_outcome ddgs query max_results (provider_calls s),
   add_pulls (search_pulls ddgs query max_results (provider_calls s))
             (count_provider_call s)).
Proof.
  unfold _search_from_ddgs, search_outcome, search_pulls, bind, ddgs_text.
  destruct (ddgs (provider_calls s) query) as [e|it].
  - by rewrite add_pulls_0.
  - rewrite comprehension_eq, length_range.
    by destruct (rows (Z.to_nat max_results) it).
Qed.

Lemma on_exception_eq {A} query e s :
  @on_exception A query e s = (Raised (reclassified e), write_line (logged query e) s).
Proof.
  unfold on_exception, reclassified, logged.
  by destruct (contains (text "Ratelimit") (exc_str e)).
Qed.

(** One attempt of [run], in closed form. *)
Lemma run_body_eq query max_results as_string s :
  run_body ddgs query max_results as_string s =
  (attempt_outcome ddgs query max_results as_string (provider_calls s),
   attempt_state ddgs query max_results s).
Proof.
  unfold run_body, attempt_outcome, attempt_state, bind, modify, try_except.
  rewrite search_eq. cbn [provider_calls count_token].
  destruct (search_outcome ddgs query max_results (provider_calls s)) as [v|e].
  - unfold returned_as. by destruct as_string.
  - by rewrite on_exception_eq.
Qed.
End Attempt.

(* ===================================================================== *)
(** * What the comprehension collects *)

Section Rows.

Lemma result_outcome_returned i row :
  result_outcome i = Returned row -> normalized i row.
Proof.
  unfold result_outcome, normalized.
  destruct (i !! text "href") as [h|]; [|discriminate].
  destruct (i !! text "body") as [b|]; [|discriminate].
  destruct (i !! text "title") as [t|]; [|discriminate].
  intros [= <-]. by exists h, b, t.
Qed.

Lemma result_outcome_fields i :
  has_fields i -> exists row, result_outcome i = Returned row /\ normalized i row.
Proof.
  intros ([h Hh] & [b Hb] & [t Ht]).
  exists (search_result h b t). split.
  - unfold result_outcome. by rewrite Hh, Hb, Ht.
  - by exists h, b, t.
Qed.

Lemma result_outcome_missing i key :
  first_missing i = Some key -> result_outcome i = Raised (key_error key).
Proof.
  unfold first_missing, result_outcome.
  destruct (i !! text "href"), (i !! text "body"), (i !! text "title");
    intros [= <-]; reflexivity.
Qed.

(** The records among the first [n] answers are collected in order. *)
Lemma rows_prefix n :
  forall it good,
    take n it = Item <$> good -> Forall has_fields good ->
    exists rs, rows n it = Returned rs /\ Forall2 normalized good rs.
Proof.
  induction n as [|n IH]; intros it good Htake Hgood.
  - destruct good; [|discriminate]. exists []. by split.
  - destruct it as [|y it].
    + destruct good; [|discriminate]. exists []. by split.
    + destruct good as [|i good]; [discriminate|].
      cbn in Htake. injection Htake as -> Htake.
      apply Forall_cons in Hgood as [Hi Hgood].
      destruct (result_outcome_fields i Hi) as (row & Hrow & Hnorm).
      destruct (IH it good Htake Hgood) as (rs & Hrs & Hall).
      exists (row :: rs). cbn [rows]. rewrite Hrow, Hrs. split; [done|].
      by constructor.
Qed.

(** A failure of the iterator within the range is the outcome. *)
Lemma rows_throws n good e tail :
  Forall has_fields good -> length good < n ->
  rows n ((Item <$> good) ++ Throws e :: tail) = Raised e.
Proof.
  revert n. induction good as [|i good IH]; intros n Hgood Hlen;
    (destruct n as [|n]; [cbn in Hlen; lia|]).
  - reflexivity.
  - apply Forall_cons in Hgood as [Hi Hgood].
    destruct (result_outcome_fields i Hi) as (row & Hrow & _).
    cbn [fmap list_fmap app rows]. rewrite Hrow.
    change (list_fmap _ _ Item good) with (Item <$> good).
    rewrite IH; [done|done|]. cbn in Hlen. lia.
Qed.

(** A record lacking a field within the range is a [KeyError]. *)
Lemma rows_malformed n good bad key tail :
  Forall has_fields good -> length good < n ->
  first_missing bad = Some key ->
  rows n ((Item <$> good) ++ Item bad :: tail) = Raised (key_error key).
Proof.
  revert n. induction good as [|i good IH]; intros n Hgood Hlen Hbad;
    (destruct n as [|n]; [cbn in Hlen; lia|]).
  - cbn [fmap list_fmap app rows]. by rewrite (result_outcome_missing _ _ Hbad).
  - apply Forall_cons in Hgood as [Hi Hgood].
    destruct (result_outcome_fields i Hi) as (row & Hrow & _).
    cbn [fmap list_fmap app rows]. rewrite Hrow.
    change (list_fmap _ _ Item good) with (Item <$> good).
    rewrite IH; [done|done| |done]. cbn in Hlen. lia.
Qed.

(** What is returned covers the whole range: every answer among the
    first [n] was a record, and each has its row. *)
Lemma rows_complete n :
  forall it rs,
    rows n it = Returned rs ->
    Forall2 (fun y row => exists i, y = Item i /\ normalized i row) (take n it) rs.
Proof.
  induction n as [|n IH]; intros it rs Hrows.
  - cbn in Hrows. injection Hrows as <-. rewrite take_0. constructor.
  - destruct it as [|[i|e] it]; cbn [rows] in Hrows.
    + injection Hrows as <-. constructor.
    + destruct (result_outcome i) as [row|] eqn:Hrow; [|discriminate].
      destruct (rows n it) as [rest|] eqn:Hrest; [|discriminate].
      injection Hrows as <-. cbn [take]. constructor.
      * exists i. split; [done|]. by apply result_outcome_returned.
      * by apply IH.
    + discriminate.
Qed.

Lemma rows_length n it rs : rows n it = Returned rs -> length rs = min n (length it).
Proof.
  intros H. apply rows_complete in H. apply Forall2_length in H.
  by rewrite <- H, length_take.
Qed.

Lemma pulls_le n it : pulls n it <= n.
Proof.
  revert it. induction n as [|n IH]; intros it; [done|].
  destruct it as [|[i|e] it]; cbn [pulls]; [lia| |lia].
  destruct (result_outcome i); [|lia]. specialize (IH it). lia.
Qed.

(** Every row has the three keys once each, so the returned list is a
    value [json.dumps] and [json.loads] agree on. *)
Lemma search_result_well_formed href body title :
  well_formed false (search_result href body title).
Proof.
  constructor.
  - apply (bool_decide_unpack _). by vm_compute.
  - repeat constructor; done.
Qed.

Lemma rows_well_formed n it rs :
  rows n it = Returned rs -> well_formed false (PList rs).
Proof.
  intros H. apply rows_complete in H. constructor.
  induction H as [|y row ys rs (i & _ & h & b & t & _ & _ & _ & ->) _ IH];
    constructor; [apply search_result_well_formed|done].
Qed.

(** The keys of a row are ASCII, so whatever text the provider gave, the
    returned value has sound keys for either encoder. *)
Lemma search_result_keys_ok ea href body title :
  keys_ok ea (search_result href body title).
Proof.
  constructor.
  - apply (bool_decide_unpack _). by vm_compute.
  - repeat constructor; intros _; repeat constructor; left; reflexivity.
Qed.

Lemma rows_keys_ok ea n it rs :
  rows n it = Returned rs -> keys_ok ea (PList rs).
Proof.
  intros H. apply rows_complete in H. constructor.
  induction H as [|y row ys rs (i & _ & h & b & t & _ & _ & _ & ->) _ IH];
    constructor; [apply search_result_keys_ok|done].
Qed.
End Rows.

(* ===================================================================== *)
(** * The retry policy *)

Section Retry.
Local Open Scope Z_scope.

Lemma wait_exponential_clamped n :
  wait_exponential 1 4 10 n = Z.max 4 (Z.min 10 (1 * 2 ^ (Z.of_nat n - 1))).
Proof. unfold wait_exponential. lia. Qed.

Lemma wait_exponential_bounds n : 4 <= wait_exponential 1 4 10 n <= 10.
Proof. unfold wait_exponential. lia. Qed.

Lemma wait_exponential_mono n m :
  (1 <= n)%nat -> (n <= m)%nat ->
  wait_exponential 1 4 10 n <= wait_exponential 1 4 10 m.
Proof.
  intros Hn Hnm. unfold wait_exponential.
  assert (2 ^ (Z.of_nat n - 1) <= 2 ^ (Z.of_nat m - 1))
    by (apply Z.pow_le_mono_r; lia).
  lia.
Qed.

Lemma wait_exponential_first_four :
  wait_exponential 1 4 10 <$> [1; 2; 3; 4]%nat = [4; 4; 4; 8].
Proof. reflexivity. Qed.
End Retry.

Section Retrying.
Context {A : Type}.
Variable p : policy.
Variable fn : M A.

Lemma retrying_returned budget n s a s1 :
  fn (count_attempt s) = (Returned a, s1) ->
  retrying p budget n fn s = (Returned a, s1).
Proof. intros H. destruct budget; cbn [retrying]; by rewrite H. Qed.

Lemma retrying_not_retried budget n s e s1 :
  fn (count_attempt s) = (Raised e, s1) -> retry_on p e = false ->
  retrying p budget n fn s = (Raised e, s1).
Proof. intros H Hr. destruct budget; cbn [retrying]; by rewrite H, Hr. Qed.

Lemma retrying_stopped budget n s e s1 :
  fn (count_attempt s) = (Raised e, s1) -> retry_on p e = true ->
  stop_at p n = true ->
  retrying p budget n fn s =
  (Raised (if reraise p then e else raise_from RetryError [] e), s1).
Proof. intros H Hr Hs. destruct budget; cbn [retrying]; by rewrite H, Hr, Hs. Qed.

Lemma retrying_again budget n s e s1 :
  fn (count_attempt s) = (Raised e, s1) -> retry_on p e = true ->
  stop_at p n = false ->
  retrying p (S budget) n fn s =
  retrying p budget (S n) fn (sleep_for (wait_after p n) s1).
Proof. intros H Hr Hs. cbn [retrying]. by rewrite H, Hr, Hs. Qed.

(** With [reraise], whatever the loop gives was given by a call. *)
Lemma retrying_outcome budget :
  reraise p = true ->
  forall n s o s', retrying p budget n fn s = (o, s') ->
    exists s0, fn s0 = (o, s').
Proof.
  intros Hre. induction budget as [|budget IH]; intros n s o s';
    cbn [retrying]; destruct (fn (count_attempt s)) as [[a|e] s1] eqn:Hfn.
  - intros [= <- <-]. eauto.
  - rewrite Hre. destruct (retry_on p e), (stop_at p n); intros [= <- <-]; eauto.
  - intros [= <- <-]. eauto.
  - rewrite Hre. destruct (retry_on p e); [|intros [= <- <-]; eauto].
    destruct (stop_at p n); [intros [= <- <-]; eauto|]. apply IH.
Qed.
End Retrying.

(** Two functions that differ only in how they present what they return
    behave alike under the loop. *)
Lemma retrying_map {A B} (p : policy) (f : A -> B) (fn : M A) (fn' : M B) :
  (forall s, fn' s = (map_outcome f (fn s).1, (fn s).2)) ->
  forall budget n s,
    retrying p budget n fn' s =
    (map_outcome f (retrying p budget n fn s).1, (retrying p budget n fn s).2).
Proof.
  intros Hrel. induction budget as [|budget IH]; intros n s;
    cbn [retrying]; rewrite Hrel; destruct (fn (count_attempt s)) as [[a|e] s1];
    cbn [map_outcome fst snd]; try done.
  - by destruct (retry_on p e), (stop_at p n).
  - destruct (retry_on p e); [|done]. destruct (stop_at p n); [done|]. apply IH.
Qed.

(* ===================================================================== *)
(** * [run]: attempts under the policy *)

Section Run.
Variable ddgs : provider.
Variables (query : pystr) (max_results : Z) (as_string : bool).

Abbreviation body := (run_body ddgs query max_results as_string).
Abbreviation found := (search_outcome ddgs query max_results).

Lemma reclassified_is_retried e : retry_on run_policy (reclassified e) = true.
Proof. reflexivity. Qed.

Lemma other_class_not_retried e :
  exc_type e <> DuckDuckGoSearchException -> retry_on run_policy e = false.
Proof.
  intros H. cbn. unfold retry_if_exception_type, isinstance.
  by apply bool_decide_eq_false.
Qed.

Lemma body_returned s v :
  found (provider_calls s) = Returned v ->
  body (count_attempt s) =
  (Returned (returned_as as_string v),
   attempt_state ddgs query max_results (count_attempt s)).
Proof.
  intros H. rewrite run_body_eq. unfold attempt_outcome.
  cbn [provider_calls count_attempt]. by rewrite H.
Qed.

Lemma body_raised s e :
  found (provider_calls s) = Raised e ->
  body (count_attempt s) =
  (Raised (reclassified e), attempt_state ddgs query max_results (count_attempt s)).
Proof.
  intros H. rewrite run_body_eq. unfold attempt_outcome.
  cbn [provider_calls count_attempt]. by rewrite H.
Qed.

(** What one attempt leaves behind. *)
Lemma attempt_state_counters s :
  let s1 := attempt_state ddgs query max_results (count_attempt s) in
  provider_calls s1 = S (provider_calls s) /\
  tokens_acquired s1 = S (tokens_acquired s) /\
  attempts s1 = S (attempts s) /\
  pulled s1 = pulled s + search_pulls ddgs query max_results (provider_calls s) /\
  clock s1 = clock s /\ sleeps s1 = sleeps s /\ cache s1 = cache s.
Proof.
  unfold attempt_state. cbn [provider_calls count_attempt].
  by destruct (found (provider_calls s)).
Qed.

Lemma attempt_state_stdout s :
  stdout (attempt_state ddgs query max_results (count_attempt s)) =
  match found (provider_calls s) with
  | Returned _ => stdout s
  | Raised e => stdout s ++ [logged query e]
  end.
Proof.
  unfold attempt_state. cbn [provider_calls count_attempt].
  by destruct (found (provider_calls s)).
Qed.

(** The budget given to the loop never runs out before the stop
    condition holds: any budget from [5 - n] on gives the same. *)
Lemma retrying_budget {A} (fn : M A) left :
  forall n b b' s,
    n + left = 5 -> left <= b -> left <= b' ->
    retrying run_policy b n fn s = retrying run_policy b' n fn s.
Proof.
  induction left as [|left IH]; intros n b b' s Hn Hb Hb'.
  - assert (Hstop : stop_at run_policy n = true)
      by (apply Nat.leb_le; lia).
    destruct b, b'; cbn [retrying]; destruct (fn (count_attempt s)) as [[a|e] s1];
      try done; rewrite Hstop; by destruct (retry_on run_policy e).
  - assert (Hstop : stop_at run_policy n = false)
      by (apply Nat.leb_gt; lia).
    destruct b as [|b]; [lia|]. destruct b' as [|b']; [lia|].
    cbn [retrying]. destruct (fn (count_attempt s)) as [[a|e] s1]; [done|].
    destruct (retry_on run_policy e); [|done]. rewrite Hstop.
    apply IH; lia.
Qed.

(** When every remaining attempt fails, each is made, the policy sleeps
    between them, and the failure of the last one is what is raised. *)
Lemma retrying_all_fail (fails : nat -> pyexc) left :
  forall n b s,
    n + left = 5 -> left <= b ->
    (forall i, i <= left -> found (provider_calls s + i) = Raised (fails (n + i))) ->
    exists s',
      retrying run_policy b n body s = (Raised (reclassified (fails 5)), s') /\
      provider_calls s' = provider_calls s + S left /\
      tokens_acquired s' = tokens_acquired s + S left /\
      attempts s' = attempts s + S left /\
      sleeps s' = sleeps s ++ (wait_exponential 1 4 10 <$> seq n left) /\
      clock s' = (clock s + foldr Z.add 0 (wait_exponential 1 4 10 <$> seq n left))%Z /\
      cache s' = cache s.
Proof.
  induction left as [|left IH]; intros n b s Hn Hb Hfail.
  - assert (Hstop : stop_at run_policy n = true)
      by (apply Nat.leb_le; lia).
    pose proof (Hfail 0 ltac:(lia)) as H0. rewrite !Nat.add_0_r in H0.
    replace n with 5 in * by lia.
    eexists. split.
    + erewrite retrying_stopped; [reflexivity|by apply body_raised|done|done].
    + destruct (attempt_state_counters s) as (-> & -> & -> & _ & -> & -> & ->).
      cbn [seq fmap list_fmap foldr]. rewrite app_nil_r.
      repeat split; lia.
  - assert (Hstop : stop_at run_policy n = false)
      by (apply Nat.leb_gt; lia).
    destruct b as [|b]; [lia|].
    pose proof (Hfail 0 ltac:(lia)) as H0. rewrite !Nat.add_0_r in H0.
    erewrite retrying_again; [|by apply body_raised|done|done].
    set (s1 := sleep_for _ _).
    destruct (attempt_state_counters s) as (Hc & Ht & Ha & _ & Hcl & Hsl & Hca).
    destruct (IH (S n) b s1) as (s' & Hrun & Hc' & Ht' & Ha' & Hsl' & Hcl' & Hca').
    + lia.
    + lia.
    + intros i Hi. subst s1. cbn [provider_calls sleep_for]. rewrite Hc.
      replace (S (provider_calls s) + i) with (provider_calls s + S i) by lia.
      replace (S n + i) with (n + S i) by lia. apply Hfail. lia.
    + exists s'. split; [done|]. subst s1.
      cbn [provider_calls tokens_acquired attempts sleeps clock cache sleep_for] in *.
      change (wait_after run_policy n) with (wait_exponential 1 4 10 n) in *.
      rewrite Hc', Ht', Ha', Hsl', Hcl', Hca', Hc, Ht, Ha, Hsl, Hcl, Hca.
      cbn [seq fmap list_fmap foldr]. rewrite <- app_assoc.
      repeat split; try lia; done.
Qed.
End Run.


(* ===================================================================== *)
(** * The contract of the wrapper *)

Lemma run_first_attempt_returns ddgs query max_results as_string s v :
  search_outcome ddgs query max_results (provider_calls s) = Returned v ->
  run ddgs query max_results as_string s =
  (Returned (returned_as as_string v),
   attempt_state ddgs query max_results (count_attempt s)).
Proof. intros H. unfold run. apply retrying_returned. by apply body_returned. Qed.

(** C1.  For every query and every [max_results = k >= 0], when the
    provider yields the well-formed records [recs], the search invocation
    (and [run] with [as_string] false) returns a list of length at most
    [k], of length [length recs] when that is less than [k], whose
    elements are the first [k] records in provider order, each mapped to
    [{link: href, snippet: body, title: title}]. *)
Theorem search_returns_first_records
    (ddgs : provider) (query : pystr) (k : Z) (s : state) (recs : list record) :
  (0 <= k)%Z ->
  ddgs (provider_calls s) query = Iterable (Item <$> recs) ->
  Forall has_fields (take (Z.to_nat k) recs) ->
  exists rs,
    (_search_from_ddgs ddgs query k s).1 = Returned (PList rs) /\
    (run ddgs query k false s).1 = Returned (PList rs) /\
    (Z.of_nat (length rs) <= k)%Z /\
    ((Z.of_nat (length recs) < k)%Z -> length rs = length recs) /\
    Forall2 normalized (take (Z.to_nat k) recs) rs.
Proof.
  intros Hk Hddgs Hrecs.
  destruct (rows_prefix (Z.to_nat k) (Item <$> recs) (take (Z.to_nat k) recs))
    as (rs & Hrows & Hnorm); [by rewrite fmap_take|done|].
  assert (Hfound : search_outcome ddgs query k (provider_calls s) = Returned (PList rs))
    by (unfold search_outcome; by rewrite Hddgs, Hrows).
  pose proof (Forall2_length _ _ _ Hnorm) as Hlen. rewrite length_take in Hlen.
  exists rs. repeat split.
  - by rewrite search_eq.
  - by rewrite (run_first_attempt_returns _ _ _ _ _ _ Hfound).
  - lia.
  - lia.
  - done.
Qed.

Lemma search_returns_first_records_witness :
  exists rs,
    (_search_from_ddgs provider_five (text "rust programming") 3 initial_state).1
      = Returned (PList rs) /\
    (run provider_five (text "rust programming") 3 false initial_state).1
      = Returned (PList rs) /\
    (Z.of_nat (length rs) <= 3)%Z /\
    ((Z.of_nat (length mock_records) < 3)%Z -> length rs = length mock_records) /\
    Forall2 normalized (take (Z.to_nat 3) mock_records) rs.
Proof.
  apply (search_returns_first_records provider_five (text "rust programming") 3
           initial_state mock_records).
  - lia.
  - reflexivity.
  - repeat constructor; eexists; vm_compute; reflexivity.
Defined.

(** C9, as stated, fails: with [max_results = 0] the provider is still
    called, and when that call raises (here on each of the five attempts)
    [run] raises instead of returning the empty list. *)
Lemma zero_results_provider_down :
  let r := run provider_down (text "rust") 0 false initial_state in
  r.1 = Raised (reclassified ratelimit_error) /\
  r.1 <> Returned (PList []) /\
  provider_calls r.2 = 5 /\ pulled r.2 = 0.
Proof. vm_compute. repeat split; discriminate. Qed.

(** C9, amended.  For every query and every [max_results <= 0], negative
    values included, when the provider call hands back its result
    sequence (whatever it holds), the call returns the empty list when
    [as_string] is false and the string ["[]"] when it is true, on the
    first attempt, after one provider call and without asking the
    sequence for any record. *)
Theorem nonpositive_max_results_returns_empty
    (ddgs : provider) (query : pystr) (k : Z) (as_string : bool) (s : state)
    (items : list yielded) :
  (k <= 0)%Z ->
  ddgs (provider_calls s) query = Iterable items ->
  exists s',
    run ddgs query k as_string s =
      (Returned (if as_string then PStr (text "[]") else PList []), s') /\
    pulled s' = pulled s /\
    provider_calls s' = S (provider_calls s) /\
    attempts s' = S (attempts s) /\
    sleeps s' = sleeps s.
Proof.
  intros Hk Hddgs.
  assert (Hn : Z.to_nat k = 0) by lia.
  assert (Hfound : search_outcome ddgs query k (provider_calls s) = Returned (PList [])).
  { unfold search_outcome. by rewrite Hddgs, Hn. }
  eexists. split.
  - rewrite (run_first_attempt_returns _ _ _ as_string _ _ Hfound).
    by destruct as_string.
  - destruct (attempt_state_counters ddgs query k s) as (-> & _ & -> & -> & _ & -> & _).
    unfold search_pulls. rewrite Hddgs, Hn. cbn [pulls]. repeat split; lia.
Qed.

Lemma nonpositive_max_results_returns_empty_witness :
  exists s',
    run provider_breaks (text "rust") (-2) true initial_state =
      (Returned (PStr (text "[]")), s') /\
    pulled s' = pulled initial_state /\
    provider_calls s' = S (provider_calls initial_state) /\
    attempts s' = S (attempts initial_state) /\
    sleeps s' = sleeps initial_state.
Proof.
  apply (nonpositive_max_results_returns_empty provider_breaks (text "rust") (-2) true
           initial_state
           [Item (mock_record 1); Item (mock_record 2); Throws timeout_error;
            Item (mock_record 3)]).
  - lia.
  - reflexivity.
Defined.

Lemma first_missing_key i key :
  first_missing i = Some key ->
  key = text "href" \/ key = text "body" \/ key = text "title".
Proof.
  unfold first_missing.
  destruct (i !! text "href"), (i !! text "body"), (i !! text "title");
    intros [= <-]; tauto.
Qed.

Lemma key_error_reclassified key :
  key = text "href" \/ key = text "body" \/ key = text "title" ->
  reclassified (key_error key) =
  Exc DuckDuckGoSearchException (text "An error occurred during search")
      (Some (key_error key)).
Proof. intros [-> | [-> | ->]]; reflexivity. Qed.

(** C4, as stated, fails: a record lacking [body] makes [run] raise the
    wrapper's own exception class, not a [MalformedResult], and only
    after the call has been retried: five provider calls, four sleeps. *)
Lemma malformed_record_is_retried :
  let r := run provider_malformed (text "rust") 3 false initial_state in
  r.1 = Raised (Exc DuckDuckGoSearchException (text "An error occurred during search")
                    (Some (key_error (text "body")))) /\
  (forall e, r.1 = Raised e -> exc_type e <> OtherException "MalformedResult") /\
  provider_calls r.2 = 5 /\ attempts r.2 = 5 /\ sleeps r.2 = [4; 4; 4; 8]%Z.
Proof.
  vm_compute. repeat split. intros e [= <-]. discriminate.
Qed.

(** C4, amended.  If a provider record within the range is missing one
    of [href], [body], [title], building its result raises a [KeyError]
    for the first missing one; the attempt re-raises it as the wrapper's
    [DuckDuckGoSearchException] ("An error occurred during search") with
    the [KeyError] as cause, like any other failure, and the policy
    retries it: when the provider answers so on five calls in a row,
    [run] raises that exception after five provider calls. *)
Theorem missing_field_is_reclassified
    (ddgs : provider) (query : pystr) (k : Z) (as_string : bool) (s : state)
    (good : list record) (bad : record) (key : pystr) (tail : list yielded) :
  Forall has_fields good -> length good < Z.to_nat k ->
  first_missing bad = Some key ->
  (forall i, i < 5 ->
     ddgs (provider_calls s + i) query = Iterable ((Item <$> good) ++ Item bad :: tail)) ->
  let raised :=
    Exc DuckDuckGoSearchException (text "An error occurred during search")
        (Some (key_error key)) in
  (_search_from_ddgs ddgs query k s).1 = Raised (key_error key) /\
  (run_body ddgs query k as_string s).1 = Raised raised /\
  retry_on run_policy raised = true /\
  exists s',
    run ddgs query k as_string s = (Raised raised, s') /\
    provider_calls s' = provider_calls s + 5 /\
    sleeps s' = sleeps s ++ [4; 4; 4; 8]%Z.
Proof.
  intros Hgood Hlen Hbad Hddgs raised.
  assert (Hfound : forall i, i < 5 ->
            search_outcome ddgs query k (provider_calls s + i) = Raised (key_error key)).
  { intros i Hi. unfold search_outcome.
    by rewrite (Hddgs i Hi), (rows_malformed _ _ _ key _ Hgood Hlen Hbad). }
  pose proof (Hfound 0 ltac:(lia)) as H0. rewrite Nat.add_0_r in H0.
  pose proof (key_error_reclassified key (first_missing_key _ _ Hbad)) as Hre.
  fold raised in Hre.
  split; [by rewrite search_eq|].
  split; [rewrite run_body_eq; unfold attempt_outcome; cbn [fst]; by rewrite H0, Hre|].
  split; [done|].
  destruct (retrying_all_fail ddgs query k as_string (fun _ => key_error key) 4 1 5 s)
    as (s' & Hrun & Hc & _ & _ & Hsl & _); [done|lia| |].
  { intros i Hi. apply Hfound. lia. }
  exists s'. rewrite Hre in Hrun. by repeat split.
Qed.

Lemma missing_field_is_reclassified_witness :
  let raised :=
    Exc DuckDuckGoSearchException (text "An error occurred during search")
        (Some (key_error (text "body"))) in
  (_search_from_ddgs provider_malformed (text "rust") 3 initial_state).1
    = Raised (key_error (text "body")) /\
  (run_body provider_malformed (text "rust") 3 false initial_state).1 = Raised raised /\
  retry_on run_policy raised = true /\
  exists s',
    run provider_malformed (text "rust") 3 false initial_state = (Raised raised, s') /\
    provider_calls s' = provider_calls initial_state + 5 /\
    sleeps s' = sleeps initial_state ++ [4; 4; 4; 8]%Z.
Proof.
  apply (missing_field_is_reclassified provider_malformed (text "rust") 3 false
           initial_state [mock_record 1] (delete (text "body") (mock_record 2))
           (text "body") [Item (mock_record 3)]).
  - repeat constructor; eexists; vm_compute; reflexivity.
  - vm_compute. lia.
  - vm_compute. reflexivity.
  - intros i _. reflexivity.
Defined.

Lemma run_returned_from_search ddgs query k as_string s v s' :
  run ddgs query k as_string s = (Returned v, s') ->
  exists n it rs,
    ddgs n query = Iterable it /\ rows (Z.to_nat k) it = Returned rs /\
    v = returned_as as_string (PList rs).
Proof.
  intros Hrun. apply retrying_outcome in Hrun as [s0 Hbody]; [|done].
  rewrite run_body_eq in Hbody. injection Hbody as Hout _.
  unfold attempt_outcome, search_outcome in Hout.
  exists (provider_calls s0).
  destruct (ddgs (provider_calls s0) query) as [e|it]; [discriminate|].
  destruct (rows (Z.to_nat k) it) as [rs|e] eqn:Hrows; [|discriminate].
  injection Hout as <-. by exists it, rs.
Qed.

(** C8.  No partial results: when the provider's result sequence raises
    part-way, after the well-formed records [good] and within the range,
    the search raises that error and the attempt raises its
    reclassification, neither returns the rows of [good]; when the
    provider answers so on five calls in a row, [run] raises; and
    whatever [run] returns is built from a provider sequence whose first
    [max_results] answers were all records, one row for each. *)
Theorem no_partial_results
    (ddgs : provider) (query : pystr) (k : Z) (as_string : bool) (s : state)
    (good : list record) (e : pyexc) (tail : list yielded) :
  Forall has_fields good -> length good < Z.to_nat k ->
  (forall i, i < 5 ->
     ddgs (provider_calls s + i) query = Iterable ((Item <$> good) ++ Throws e :: tail)) ->
  (_search_from_ddgs ddgs query k s).1 = Raised e /\
  (run_body ddgs query k as_string s).1 = Raised (reclassified e) /\
  (run ddgs query k as_string s).1 = Raised (reclassified e) /\
  forall ddgs' s0 v s',
    run ddgs' query k as_string s0 = (Returned v, s') ->
    exists n it rs,
      ddgs' n query = Iterable it /\ v = returned_as as_string (PList rs) /\
      Forall2 (fun y row => exists i, y = Item i /\ normalized i row)
              (take (Z.to_nat k) it) rs.
Proof.
  intros Hgood Hlen Hddgs.
  assert (Hfound : forall i, i < 5 ->
            search_outcome ddgs query k (provider_calls s + i) = Raised e).
  { intros i Hi. unfold search_outcome.
    by rewrite (Hddgs i Hi), (rows_throws _ _ _ _ Hgood Hlen). }
  pose proof (Hfound 0 ltac:(lia)) as H0. rewrite Nat.add_0_r in H0.
  split; [by rewrite search_eq|].
  split; [rewrite run_body_eq; unfold attempt_outcome; cbn [fst]; by rewrite H0|].
  split.
  - destruct (retrying_all_fail ddgs query k as_string (fun _ => e) 4 1 5 s)
      as (s' & Hrun & _); [done|lia| |].
    + intros i Hi. apply Hfound. lia.
    + unfold run. by rewrite Hrun.
  - intros ddgs' s0 v s' Hrun.
    destruct (run_returned_from_search _ _ _ _ _ _ _ Hrun) as (n & it & rs & Hit & Hrows & ->).
    exists n, it, rs. repeat split; [done|]. by apply rows_complete.
Qed.

Lemma no_partial_results_witness :
  (_search_from_ddgs provider_breaks (text "rust") 3 initial_state).1
    = Raised timeout_error /\
  (run_body provider_breaks (text "rust") 3 false initial_state).1
    = Raised (reclassified timeout_error) /\
  (run provider_breaks (text "rust") 3 false initial_state).1
    = Raised (reclassified timeout_error) /\
  forall ddgs' s0 v s',
    run ddgs' (text "rust") 3 false s0 = (Returned v, s') ->
    exists n it rs,
      ddgs' n (text "rust") = Iterable it /\ v = returned_as false (PList rs) /\
      Forall2 (fun y row => exists i, y = Item i /\ normalized i row)
              (take (Z.to_nat 3) it) rs.
Proof.
  apply (no_partial_results provider_breaks (text "rust") 3 false initial_state
           [mock_record 1; mock_record 2] timeout_error [Item (mock_record 3)]).
  - repeat constructor; eexists; vm_compute; reflexivity.
  - vm_compute. lia.
  - intros i _. reflexivity.
Defined.



(** [needle in haystack] holds exactly when the haystack is some text,
    the needle, and some more text. *)
Lemma startswith_spec p s :
  startswith p s = true <-> exists b, s = p ++ b.
Proof.
  revert s. induction p as [|a p IH]; intros s.
  - split; [intros _; by exists s|done].
  - destruct s as [|c s]; cbn [startswith].
    + split; [discriminate|intros [b Hb]; discriminate].
    + rewrite andb_true_iff, IH, N.eqb_eq. split.
      * intros [-> [b ->]]. by exists b.
      * intros [b Hb]. injection Hb as -> ->. split; [done|by exists b].
Qed.

Lemma contains_spec needle haystack :
  contains needle haystack = true <-> exists a b, haystack = a ++ needle ++ b.
Proof.
  induction haystack as [|c rest IH].
  - cbn [contains]. rewrite orb_false_r, startswith_spec. split.
    + intros [b Hb]. by exists [], b.
    + intros (a & b & Hab). destruct a as [|? a]; [by exists b|discriminate].
  - cbn [contains]. rewrite orb_true_iff, startswith_spec, IH. split.
    + intros [[b Hb]|(a & b & Hab)]; [by exists [], b|].
      exists (c :: a), b. by rewrite Hab.
    + intros (a & b & Hab). destruct a as [|c' a].
      * left. by exists b.
      * right. injection Hab as -> ->. by exists a, b.
Qed.

Lemma contains_none needle haystack :
  (forall a b, haystack <> a ++ needle ++ b) -> contains needle haystack = false.
Proof.
  intros Hnone. destruct (contains needle haystack) eqn:E; [|done].
  apply contains_spec in E as (a & b & Hab). by destruct (Hnone a b).
Qed.

(** what the [except] clause makes of a failure whose message holds
    "Ratelimit", and of one whose message does not *)
Lemma reclassified_ratelimit e :
  (exists a b, exc_str e = a ++ text "Ratelimit" ++ b) ->
  reclassified e = Exc DuckDuckGoSearchException (text "Rate limit exceeded") (Some e).
Proof.
  intros H. apply contains_spec in H. unfold reclassified, raise_from. by rewrite H.
Qed.

Lemma reclassified_other e :
  (forall a b, exc_str e <> a ++ text "Ratelimit" ++ b) ->
  reclassified e =
  Exc DuckDuckGoSearchException (text "An error occurred during search") (Some e).
Proof.
  intros H. apply contains_none in H. unfold reclassified, raise_from. by rewrite H.
Qed.

Lemma logged_ratelimit query e :
  (exists a b, exc_str e = a ++ text "Ratelimit" ++ b) ->
  logged query e = text "Rate limit hit for query: " ++ query ++ text ". Retrying...".
Proof. intros H. apply contains_spec in H. unfold logged. by rewrite H. Qed.

Lemma logged_other query e :
  (forall a b, exc_str e <> a ++ text "Ratelimit" ++ b) ->
  logged query e = text "An error occurred: " ++ exc_str e.
Proof. intros H. apply contains_none in H. unfold logged. by rewrite H. Qed.

(** C10.  Every error the search call raises to its caller, through
    [run] or through [cached_run], is a [DuckDuckGoSearchException] whose
    cause is the failure [e0] of a search and whose message is one of two
    fixed texts: "Rate limit exceeded" when the message of [e0] is some
    text, "Ratelimit", and some more text, "An error occurred during
    search" when it is not.  The message of [e0] is not in the message
    raised; it reaches the output only through the line the failing
    attempt printed last, which is the rate-limit notice for the query in
    the first case and "An error occurred: " followed by the message of
    [e0] in the second. *)
Theorem raised_errors_carry_fixed_messages
    (ddgs : provider) (query : pystr) (k : Z) (as_string : bool) (s s' : state)
    (e : pyexc) :
  run ddgs query k as_string s = (Raised e, s') \/
  cached_run ddgs query k as_string s = (Raised e, s') ->
  exists e0 s0,
    (_search_from_ddgs ddgs query k s0).1 = Raised e0 /\
    exc_type e = DuckDuckGoSearchException /\
    exc_cause e = Some e0 /\
    ((exists a b, exc_str e0 = a ++ text "Ratelimit" ++ b) ->
       e = Exc DuckDuckGoSearchException (text "Rate limit exceeded") (Some e0) /\
       exists out,
         stdout s' = out ++ [text "Rate limit hit for query: " ++ query ++
                             text ". Retrying..."]) /\
    ((forall a b, exc_str e0 <> a ++ text "Ratelimit" ++ b) ->
       e = Exc DuckDuckGoSearchException (text "An error occurred during search")
               (Some e0) /\
       exists out, stdout s' = out ++ [text "An error occurred: " ++ exc_str e0]) /\
    (exc_str e = text "Rate limit exceeded" \/
     exc_str e = text "An error occurred during search").
Proof.
  intros Hraised.
  assert (Hrun : exists s1, run ddgs query k as_string s1 = (Raised e, s')).
  { destruct Hraised as [H|H]; [by exists s|]. exists s.
    unfold cached_run, cached in H.
    destruct (get_from_cache _ s); [discriminate|].
    destruct (run ddgs query k as_string s) as [[v|e1] s1]; [discriminate|].
    by injection H as -> ->. }
  destruct Hrun as [s1 Hrun].
  apply retrying_outcome in Hrun as [s0 Hbody]; [|done].
  rewrite run_body_eq in Hbody. injection Hbody as Hout Hst.
  unfold attempt_outcome in Hout. unfold attempt_state in Hst.
  destruct (search_outcome ddgs query k (provider_calls s0)) as [v|e0] eqn:Hfound;
    [discriminate|].
  injection Hout as <-. exists e0, s0.
  split; [by rewrite search_eq|]. split; [done|]. split; [done|].
  subst s'. cbn [stdout write_line]. split; [|split].
  - intros Hyes. rewrite (reclassified_ratelimit e0 Hyes), (logged_ratelimit query e0 Hyes).
    split; [done|]. eauto.
  - intros Hno. rewrite (reclassified_other e0 Hno), (logged_other query e0 Hno).
    split; [done|]. eauto.
  - unfold reclassified. destruct (contains _ _); [by left|by right].
Qed.

(** At a provider that answers "Ratelimit exceeded" on every call: what
    [run] raises says "Rate limit exceeded", and the last line printed is
    the notice for the query. *)
Lemma raised_errors_carry_fixed_messages_witness :
  let r := run provider_down (text "rust") 8 true initial_state in
  exists e,
    r.1 = Raised e /\
    e = Exc DuckDuckGoSearchException (text "Rate limit exceeded")
            (Some (Exc (OtherException "Exception") (text "Ratelimit exceeded") None)) /\
    exc_str e = text "Rate limit exceeded" /\
    exists out,
      stdout r.2 = out ++ [text "Rate limit hit for query: rust. Retrying..."].
Proof.
  intros r.
  destruct r as [o s'] eqn:Hr. subst r.
  assert (Ho : exists e, o = Raised e /\ exc_cause e = Some ratelimit_error).
  { replace o with (run provider_down (text "rust") 8 true initial_state).1
      by (by rewrite Hr).
    eexists. split; vm_compute; reflexivity. }
  destruct Ho as (e & -> & Hcause).
  destruct (raised_errors_carry_fixed_messages provider_down (text "rust") 8 true
              initial_state s' e (or_introl Hr))
    as (e0 & s0 & _ & _ & Hcause0 & Hyes & _ & _).
  rewrite Hcause in Hcause0. injection Hcause0 as <-.
  destruct (Hyes (ex_intro _ [] (ex_intro _ (text " exceeded") eq_refl)))
    as [He Hout].
  exists e. split; [done|]. split; [exact He|]. split; [by rewrite He|exact Hout].
Defined.

(** C3.  The retry policy of [run].  After attempt [n] (from 1) the wait
    is [min(max_wait, base * 2^(n-1))] clamped to [4, 10], and waits
    never decrease from one attempt to the next; an exception of another
    class than [DuckDuckGoSearchException] is not retried: it is raised at
    once, after that single call and without sleeping; and when the
    provider invocation fails on five attempts in a row, the provider has
    been called exactly five times, the policy has slept 4, 4, 4 and 8
    between them, and what is raised is the exception of the fifth
    attempt as that attempt raised it. *)
Theorem retry_policy_of_run
    (ddgs : provider) (query : pystr) (k : Z) (as_string : bool) (s : state)
    (fails : nat -> pyexc) :
  (forall i, i < 5 ->
     (_search_from_ddgs ddgs query k
        (at_call (provider_calls s + i))).1 = Raised (fails (S i))) ->
  (forall n m, 1 <= n -> n <= m ->
     wait_after run_policy n = Z.max 4 (Z.min 10 (1 * 2 ^ (Z.of_nat n - 1))) /\
     (4 <= wait_after run_policy n <= 10)%Z /\
     (wait_after run_policy n <= wait_after run_policy m)%Z) /\
  (forall (fn : M pyval) budget n s0 e s1,
     fn (count_attempt s0) = (Raised e, s1) ->
     exc_type e <> DuckDuckGoSearchException ->
     retrying run_policy budget n fn s0 = (Raised e, s1)) /\
  exists s',
    run ddgs query k as_string s = (Raised (reclassified (fails 5)), s') /\
    (run_body ddgs query k as_string (at_call (provider_calls s + 4))).1
      = Raised (reclassified (fails 5)) /\
    provider_calls s' = provider_calls s + 5 /\
    attempts s' = attempts s + 5 /\
    tokens_acquired s' = tokens_acquired s + 5 /\
    sleeps s' = sleeps s ++ [4; 4; 4; 8]%Z.
Proof.
  intros Hfails.
  assert (Hfound : forall i, i < 5 ->
            search_outcome ddgs query k (provider_calls s + i) = Raised (fails (S i))).
  { intros i Hi. specialize (Hfails i Hi). by rewrite search_eq in Hfails. }
  split; [|split].
  - intros n m Hn Hnm. change (wait_after run_policy) with (wait_exponential 1 4 10).
    split; [apply wait_exponential_clamped|].
    split; [apply wait_exponential_bounds|]. by apply wait_exponential_mono.
  - intros fn budget n s0 e s1 Hfn Hcls.
    apply retrying_not_retried; [done|]. by apply other_class_not_retried.
  - destruct (retrying_all_fail ddgs query k as_string fails 4 1 5 s)
      as (s' & Hrun & Hc & Ht & Ha & Hsl & _); [done|lia| |].
    { intros i Hi. apply Hfound. lia. }
    exists s'. split; [done|]. split.
    + rewrite run_body_eq. unfold attempt_outcome. cbn [fst provider_calls at_call].
      by rewrite (Hfound 4 ltac:(lia)).
    + by repeat split.
Qed.

Lemma retry_policy_of_run_witness :
  (forall n m, 1 <= n -> n <= m ->
     wait_after run_policy n = Z.max 4 (Z.min 10 (1 * 2 ^ (Z.of_nat n - 1))) /\
     (4 <= wait_after run_policy n <= 10)%Z /\
     (wait_after run_policy n <= wait_after run_policy m)%Z) /\
  (forall (fn : M pyval) budget n s0 e s1,
     fn (count_attempt s0) = (Raised e, s1) ->
     exc_type e <> DuckDuckGoSearchException ->
     retrying run_policy budget n fn s0 = (Raised e, s1)) /\
  exists s',
    run provider_down (text "rust") 8 true initial_state
      = (Raised (reclassified ratelimit_error), s') /\
    (run_body provider_down (text "rust") 8 true
       (at_call (provider_calls initial_state + 4))).1
      = Raised (reclassified ratelimit_error) /\
    provider_calls s' = provider_calls initial_state + 5 /\
    attempts s' = attempts initial_state + 5 /\
    tokens_acquired s' = tokens_acquired initial_state + 5 /\
    sleeps s' = sleeps initial_state ++ [4; 4; 4; 8]%Z.
Proof.
  apply (retry_policy_of_run provider_down (text "rust") 8 true initial_state
           (fun _ => ratelimit_error)).
  intros i _. reflexivity.
Defined.

(** The other scenario of the policy: four failures, then success on the
    fifth attempt, whose results are returned. *)
Example recovers_on_fifth_attempt :
  let r := run provider_recovers (text "rust") 2 false initial_state in
  r.1 = (run provider_five (text "rust") 2 false initial_state).1 /\
  provider_calls r.2 = 5 /\ sleeps r.2 = [4; 4; 4; 8]%Z.
Proof. vm_compute. by repeat split. Qed.

Lemma run_body_as_string ddgs query k s :
  run_body ddgs query k true s =
  (map_outcome (returned_as true) (run_body ddgs query k false s).1,
   (run_body ddgs query k false s).2).
Proof.
  rewrite !run_body_eq. cbn [fst snd]. unfold attempt_outcome.
  by destruct (search_outcome ddgs query k (provider_calls s)).
Qed.

(** C2.  For every query and [max_results], on the same provider
    answers, [run] with [as_string] true does what it does with
    [as_string] false, raising the same error or returning the
    [json.dumps(..., ensure_ascii=False)] of the same list; parsing that
    string as JSON gives the list back, element for element in the same
    order; and its characters beyond ASCII are those of the list's text,
    in order, none escaped. *)
Theorem string_result_is_json_of_list
    (ddgs : provider) (query : pystr) (k : Z) (s : state) :
  let as_list := run ddgs query k false s in
  run ddgs query k true s =
    (map_outcome (fun v => PStr (json_dumps false v)) as_list.1, as_list.2) /\
  forall v, as_list.1 = Returned v ->
    (run ddgs query k true s).1 = Returned (PStr (json_dumps false v)) /\
    json_loads (json_dumps false v) = Some v /\
    List.filter non_ascii (json_dumps false v) = List.filter non_ascii (texts v) /\
    (forall c, (128 <= c)%N -> escape_char false c = [c]).
Proof.
  intros as_list. subst as_list.
  assert (Hmap : run ddgs query k true s =
            (map_outcome (returned_as true) (run ddgs query k false s).1,
             (run ddgs query k false s).2)).
  { unfold run. apply retrying_map. apply run_body_as_string. }
  split; [exact Hmap|].
  intros v Hv. split; [by rewrite Hmap, Hv|].
  split; [|split; [apply json_dumps_keeps_non_ascii|apply escape_char_non_ascii]].
  destruct (run ddgs query k false s) as [o s'] eqn:Hrun. cbn [fst] in Hv. subst o.
  destruct (run_returned_from_search _ _ _ _ _ _ _ Hrun) as (n & it & rs & _ & Hrows & ->).
  apply json_roundtrip. cbn [returned_as]. by eapply rows_well_formed.
Qed.

Lemma string_result_is_json_of_list_witness :
  (run provider_five (text "rust programming") 3 true initial_state).1
    = Returned (PStr (json_dumps false three_rows)) /\
  json_loads (json_dumps false three_rows) = Some three_rows /\
  List.filter non_ascii (json_dumps false three_rows)
    = List.filter non_ascii (texts three_rows) /\
  (forall c, (128 <= c)%N -> escape_char false c = [c]).
Proof.
  apply (proj2 (string_result_is_json_of_list provider_five (text "rust programming") 3
                  initial_state) three_rows).
  vm_compute. reflexivity.
Defined.

(* ===================================================================== *)
(** * The cache *)

Lemma run_returns_a_value ddgs query k as_string s v s' :
  run ddgs query k as_string s = (Returned v, s') -> v <> PNone.
Proof.
  intros Hrun.
  destruct (run_returned_from_search _ _ _ _ _ _ _ Hrun) as (n & it & rs & _ & _ & ->).
  by destruct as_string.
Qed.

Lemma run_returns_sound_keys ddgs query k as_string s v s' :
  run ddgs query k as_string s = (Returned v, s') -> keys_ok true v.
Proof.
  intros Hrun.
  destruct (run_returned_from_search _ _ _ _ _ _ _ Hrun)
    as (n & it & rs & _ & Hrows & ->).
  destruct as_string; cbn [returned_as]; [constructor|by eapply rows_keys_ok].
Qed.

Lemma reread_val_not_none ea v : v <> PNone -> reread_val ea v <> PNone.
Proof. by destruct v. Qed.

Lemma get_from_cache_live key s payload expiry v :
  cache s !! key = Some (payload, expiry) -> (clock s < expiry)%Z ->
  json_loads payload = Some v -> v <> PNone ->
  get_from_cache key s = Some v.
Proof.
  intros Hc Ht Hp Hv. unfold get_from_cache. rewrite Hc.
  replace (clock s <? expiry)%Z with true by (symmetry; by apply Z.ltb_lt).
  rewrite Hp. by destruct v.
Qed.

(** C5.  [cached_run] on the key [(query, max_results, as_string)].  A
    call that finds a live entry for the key, one set less than 300
    seconds before, returns the stored value and leaves the whole state
    as it was: no provider call, no limiter token, no attempt under the
    retry policy, no sleep.  A call that finds none runs [run] and, when
    it returns, stores the result under the key with an expiry 300
    seconds later.  So a call repeated within 300 seconds of a first
    successful one is always such a hit: it returns the stored value,
    which is the first result as [json.loads] reads its serialization
    back, and is the first result itself when its text is made of scalar
    values. *)
Theorem cached_run_hit_and_miss
    (ddgs : provider) (query : pystr) (k : Z) (as_string : bool) (s : state) :
  let key := (query, k, as_string) in
  (forall payload expiry v,
     cache s !! key = Some (payload, expiry) -> (clock s < expiry)%Z ->
     json_loads payload = Some v -> v <> PNone ->
     cached_run ddgs query k as_string s = (Returned v, s)) /\
  (get_from_cache key s = None ->
     cached_run ddgs query k as_string s =
     match run ddgs query k as_string s with
     | (Returned v, s1) =>
         (Returned v, cache_store key (json_dumps true v) (clock s1 + 300)%Z s1)
     | (Raised e, s1) => (Raised e, s1)
     end) /\
  (forall v s1 d,
     get_from_cache key s = None ->
     run ddgs query k as_string s = (Returned v, s1) ->
     (0 <= d < 300)%Z ->
     let first := cached_run ddgs query k as_string s in
     let s2 := elapse d first.2 in
     let again := cached_run ddgs query k as_string s2 in
     first.1 = Returned v /\
     cache first.2 !! key = Some (json_dumps true v, clock s1 + 300)%Z /\
     json_loads (json_dumps true v) = Some (reread_val true v) /\
     again = (Returned (reread_val true v), s2) /\
     (well_formed true v -> reread_val true v = v) /\
     provider_calls again.2 = provider_calls first.2 /\
     tokens_acquired again.2 = tokens_acquired first.2 /\
     attempts again.2 = attempts first.2 /\
     sleeps again.2 = sleeps first.2).
Proof.
  intros key. split; [|split].
  - intros payload expiry v Hc Ht Hp Hv. unfold cached_run, cached.
    fold key. by rewrite (get_from_cache_live _ _ _ _ _ Hc Ht Hp Hv).
  - intros Hmiss. unfold cached_run, cached. fold key. rewrite Hmiss.
    by destruct (run ddgs query k as_string s) as [[v|e] s1].
  - intros v s1 d Hmiss Hrun Hd first s2 again.
    assert (Hfirst : first = (Returned v, set_in_cache key v 300 s1)).
    { subst first. unfold cached_run, cached. fold key. by rewrite Hmiss, Hrun. }
    assert (Hentry : cache first.2 !! key = Some (json_dumps true v, clock s1 + 300)%Z).
    { rewrite Hfirst. cbn [snd set_in_cache cache_store cache clock].
      apply lookup_insert_eq. }
    assert (Hloads : json_loads (json_dumps true v) = Some (reread_val true v)).
    { apply json_loads_dumps. by eapply run_returns_sound_keys. }
    assert (Hagain : again = (Returned (reread_val true v), s2)).
    { subst again. unfold cached_run, cached. fold key.
      rewrite (get_from_cache_live key s2 (json_dumps true v) (clock s1 + 300)
                 (reread_val true v)); [done| | | |].
      - subst s2. cbn [cache elapse]. exact Hentry.
      - subst s2. rewrite Hfirst. cbn [clock elapse snd set_in_cache cache_store]. lia.
      - exact Hloads.
      - apply reread_val_not_none. by eapply run_returns_a_value. }
    split; [by rewrite Hfirst|]. split; [exact Hentry|]. split; [exact Hloads|].
    split; [exact Hagain|]. split; [apply reread_val_well_formed|].
    rewrite Hagain. subst s2. by cbn.
Qed.

Lemma well_formed_three_rows : well_formed true three_rows.
Proof.
  constructor. repeat constructor.
  all: try (apply (bool_decide_unpack _); by vm_compute).
  all: intros _; repeat constructor; left; reflexivity.
Qed.

Example three_rows_come_back :
  json_loads (json_dumps true three_rows) = Some three_rows.
Proof. apply json_roundtrip, well_formed_three_rows. Qed.

Lemma cached_run_hit_and_miss_witness :
  let query := text "rust programming" in
  let s1 := (run provider_five query 3 false initial_state).2 in
  let first := cached_run provider_five query 3 false initial_state in
  let s2 := elapse 299 first.2 in
  let again := cached_run provider_five query 3 false s2 in
  first.1 = Returned three_rows /\
  cache first.2 !! (query, 3%Z, false) = Some (json_dumps true three_rows, clock s1 + 300)%Z /\
  json_loads (json_dumps true three_rows) = Some (reread_val true three_rows) /\
  again = (Returned (reread_val true three_rows), s2) /\
  (well_formed true three_rows -> reread_val true three_rows = three_rows) /\
  provider_calls again.2 = provider_calls first.2 /\
  tokens_acquired again.2 = tokens_acquired first.2 /\
  attempts again.2 = attempts first.2 /\
  sleeps again.2 = sleeps first.2.
Proof.
  intros query s1.
  apply (proj2 (proj2 (cached_run_hit_and_miss provider_five query 3 false initial_state))
           three_rows s1 299%Z).
  - reflexivity.
  - vm_compute. reflexivity.
  - lia.
Defined.

(** A result with a lone high surrogate followed by a lone low one is read
    back from the cache as the one character the pair encodes. *)
Example lone_surrogates_are_joined :
  reread_val true (PStr [55357; 56832]%N) = PStr [128512%N] /\
  json_loads (json_dumps true (PStr [55357; 56832]%N)) = Some (PStr [128512%N]).
Proof. by vm_compute. Qed.

(** After the expiry the entry no longer counts: the call is a miss and
    the provider is called again. *)
Example expired_entry_is_a_miss :
  let query := text "rust programming" in
  let first := cached_run provider_five query 3 false initial_state in
  let later := cached_run provider_five query 3 false (elapse 300 first.2) in
  provider_calls first.2 = 1 /\ provider_calls later.2 = 2.
Proof. vm_compute. by split. Qed.

(** The limiter is entered once for each provider call, before it:
    every attempt acquires a token and makes one call. *)
Lemma one_token_per_provider_call ddgs query k as_string budget :
  forall n s o s',
    retrying run_policy budget n (run_body ddgs query k as_string) s = (o, s') ->
    exists calls,
      provider_calls s' = provider_calls s + calls /\
      tokens_acquired s' = tokens_acquired s + calls.
Proof.
  induction budget as [|budget IH]; intros n s o s'; cbn [retrying];
    rewrite run_body_eq;
    destruct (attempt_state_counters ddgs query k s) as (Hc & Ht & _);
    destruct (attempt_outcome _ _ _ _ _) as [v|e];
    try (intros [= <- <-]; exists 1; rewrite Hc, Ht; split; symmetry; apply Nat.add_1_r).
  - destruct (retry_on run_policy e), (stop_at run_policy n);
      intros [= <- <-]; exists 1; rewrite Hc, Ht; split; symmetry; apply Nat.add_1_r.
  - destruct (retry_on run_policy e);
      [|intros [= <- <-]; exists 1; rewrite Hc, Ht; split; symmetry; apply Nat.add_1_r].
    destruct (stop_at run_policy n);
      [intros [= <- <-]; exists 1; rewrite Hc, Ht; split; symmetry; apply Nat.add_1_r|].
    intros Hrec. apply IH in Hrec as (calls & H1 & H2).
    cbn [tokens_acquired provider_calls sleep_for] in H1, H2.
    exists (S calls). rewrite H1, H2, Hc, Ht. split; apply Nat.add_succ_comm.
Qed.


(* ===================================================================== *)
(** * The trace of [run]

    What the attempts of one call of [run] leave behind, whatever the
    provider answers: the failures that were retried, in order, and the
    attempt that decided the outcome. *)

Section Trace.
Variable ddgs : provider.
Variables (query : pystr) (max_results : Z) (as_string : bool).

Abbreviation body := (run_body ddgs query max_results as_string).
Abbreviation found := (search_outcome ddgs query max_results).
Abbreviation attempt := (attempt_outcome ddgs query max_results as_string).

Lemma search_pulls_le n : search_pulls ddgs query max_results n <= Z.to_nat max_results.
Proof. unfold search_pulls. destruct (ddgs n query); [lia|apply pulls_le]. Qed.

(** An attempt that returns, or that fails when the policy stops, ends
    the loop with its own outcome. *)
Lemma retrying_last_attempt budget n s :
  (forall e, found (provider_calls s) = Raised e -> stop_at run_policy n = true) ->
  retrying run_policy budget n body s =
  (attempt (provider_calls s), attempt_state ddgs query max_results (count_attempt s)).
Proof.
  intros Hstop. unfold attempt_outcome.
  destruct (found (provider_calls s)) as [v|e] eqn:Hf.
  - apply retrying_returned. by apply body_returned.
  - erewrite retrying_stopped; [reflexivity|by apply body_raised|done|by eapply Hstop].
Qed.

Lemma retrying_trace left :
  forall n b s,
    n + left = 5 -> left <= b ->
    exists errs s',
      retrying run_policy b n body s = (attempt (provider_calls s + length errs), s') /\
      length errs <= left /\
      (forall i e, errs !! i = Some e -> found (provider_calls s + i) = Raised e) /\
      (forall e, found (provider_calls s + length errs) = Raised e -> length errs = left) /\
      provider_calls s' = provider_calls s + S (length errs) /\
      tokens_acquired s' = tokens_acquired s + S (length errs) /\
      attempts s' = attempts s + S (length errs) /\
      pulled s' <= pulled s + S (length errs) * Z.to_nat max_results /\
      sleeps s' = sleeps s ++ (wait_exponential 1 4 10 <$> seq n (length errs)) /\
      clock s' = (clock s + foldr Z.add 0 (wait_exponential 1 4 10 <$> seq n (length errs)))%Z /\
      cache s' = cache s /\
      stdout s' = stdout s ++ (logged query <$> errs) ++
                  match found (provider_calls s + length errs) with
                  | Raised e => [logged query e]
                  | Returned _ => []
                  end.
Proof.
  assert (Hlast : forall left n b s,
            n + left = 5 ->
            (forall e, found (provider_calls s) = Raised e -> left = 0) ->
            exists s',
              retrying run_policy b n body s = (attempt (provider_calls s + 0), s') /\
              0 <= left /\
              (forall i e, @nil pyexc !! i = Some e -> found (provider_calls s + i) = Raised e) /\
              (forall e, found (provider_calls s + 0) = Raised e -> 0 = left) /\
              provider_calls s' = provider_calls s + 1 /\
              tokens_acquired s' = tokens_acquired s + 1 /\
              attempts s' = attempts s + 1 /\
              pulled s' <= pulled s + 1 * Z.to_nat max_results /\
              sleeps s' = sleeps s ++ [] /\
              clock s' = (clock s + 0)%Z /\
              cache s' = cache s /\
              stdout s' = stdout s ++ [] ++
                          match found (provider_calls s + 0) with
                          | Raised e => [logged query e]
                          | Returned _ => []
                          end).
  { intros left' n b s Hn Hzero. rewrite Nat.add_0_r.
    exists (attempt_state ddgs query max_results (count_attempt s)).
    destruct (attempt_state_counters ddgs query max_results s)
      as (Hc & Ht & Ha & Hp & Hcl & Hsl & Hca).
    pose proof (attempt_state_stdout ddgs query max_results s) as Hout.
    pose proof (search_pulls_le (provider_calls s)) as Hpl.
    split.
    { apply retrying_last_attempt. intros e He.
      apply Nat.leb_le. specialize (Hzero e He). lia. }
    split; [lia|]. split; [intros i e Hi; by rewrite lookup_nil in Hi|].
    split; [intros e He; symmetry; by eapply Hzero|].
    rewrite Hc, Ht, Ha, Hp, Hcl, Hsl, Hca, Hout, app_nil_r.
    repeat split; try lia.
    cbn [app]. destruct (found (provider_calls s)); [by rewrite app_nil_r|done]. }
  induction left as [|left IH]; intros n b s Hn Hb.
  - exists []. cbn [length seq fmap list_fmap foldr]. by apply Hlast.
  - destruct (found (provider_calls s)) as [v|e] eqn:Hf.
    + exists []. cbn [length seq fmap list_fmap foldr]. apply Hlast; [done|].
      intros e He. congruence.
    + destruct b as [|b]; [lia|].
      assert (Hstop : stop_at run_policy n = false) by (apply Nat.leb_gt; lia).
      destruct (attempt_state_counters ddgs query max_results s)
        as (Hc & Ht & Ha & Hp & Hcl & Hsl & Hca).
      pose proof (attempt_state_stdout ddgs query max_results s) as Hout.
      pose proof (search_pulls_le (provider_calls s)) as Hpl.
      rewrite Hf in Hout.
      set (s1 := sleep_for (wait_after run_policy n)
                   (attempt_state ddgs query max_results (count_attempt s))).
      destruct (IH (S n) b s1 ltac:(lia) ltac:(lia))
        as (errs & s' & Hrun & Hlen & Herrs & Hfull & Hc' & Ht' & Ha' & Hp' & Hsl' & Hcl' &
            Hca' & Hout').
      assert (Hpc : forall i, provider_calls s1 + i = provider_calls s + S i).
      { intros i. subst s1. cbn [provider_calls sleep_for]. rewrite Hc. lia. }
      rewrite Hpc in Hrun, Hfull, Hout'.
      exists (e :: errs), s'. cbn [length].
      split.
      { erewrite retrying_again; [exact Hrun|by apply body_raised|done|done]. }
      split; [lia|]. split.
      { intros [|i] e'; cbn [lookup list_lookup].
        - intros [= <-]. by rewrite Nat.add_0_r.
        - intros Hi. rewrite <- Hpc. by apply Herrs. }
      split; [intros e' He'; f_equal; by eapply Hfull|].
      subst s1.
      cbn [provider_calls tokens_acquired attempts pulled sleeps clock cache stdout
           sleep_for] in *.
      change (wait_after run_policy n) with (wait_exponential 1 4 10 n) in *.
      rewrite Hc', Ht', Ha', Hsl', Hcl', Hca', Hout', Hc, Ht, Ha, Hsl, Hcl, Hca, Hout.
      cbn [seq fmap list_fmap foldr app]. rewrite <- !app_assoc. cbn [app].
      repeat split; try lia; done.
Qed.
End Trace.

Lemma waits_of_policy m :
  m <= 4 -> wait_exponential 1 4 10 <$> seq 1 m = take m [4; 4; 4; 8]%Z.
Proof.
  intros Hm. do 5 (destruct m as [|m]; [reflexivity|]). lia.
Qed.

(** Failures read off the same provider answers are the same failures. *)
Lemma failures_determined (f : nat -> outcome pyval) (l1 l2 : list pyexc) :
  length l1 = length l2 ->
  (forall i e, l1 !! i = Some e -> f i = Raised e) ->
  (forall i e, l2 !! i = Some e -> f i = Raised e) ->
  l1 = l2.
Proof.
  intros Hlen H1 H2. apply list_eq. intros i.
  destruct (l1 !! i) as [e1|] eqn:E1, (l2 !! i) as [e2|] eqn:E2; [|exfalso..|done].
  - specialize (H1 i e1 E1). specialize (H2 i e2 E2). congruence.
  - apply lookup_lt_Some in E1. apply lookup_ge_None in E2. lia.
  - apply lookup_ge_None in E1. apply lookup_lt_Some in E2. lia.
Qed.

Lemma attempt_outcome_raised ddgs query k as_string n e :
  attempt_outcome ddgs query k as_string n = Raised e ->
  exists e0, search_outcome ddgs query k n = Raised e0.
Proof.
  unfold attempt_outcome. destruct (search_outcome ddgs query k n); [discriminate|eauto].
Qed.

Lemma search_at_call ddgs query k n :
  (_search_from_ddgs ddgs query k (at_call n)).1 = search_outcome ddgs query k n.
Proof. by rewrite search_eq. Qed.

(** X1.  Whatever the provider answers, one call of [run] makes at least
    one and at most five attempts; each attempt enters the rate limiter
    once and calls the provider once; the policy sleeps only between
    attempts, 4, 4, 4 and 8 seconds in that order, so never after the
    last one and never more than 20 seconds in all; [run] raises only
    when the fifth attempt has failed; it asks the provider for at most
    [max_results] records per attempt; and it leaves the cache alone. *)
Theorem run_makes_at_most_five_attempts
    (ddgs : provider) (query : pystr) (k : Z) (as_string : bool) (s : state) :
  let r := run ddgs query k as_string s in
  exists failed,
    failed <= 4 /\
    (forall e, r.1 = Raised e -> failed = 4) /\
    provider_calls r.2 = provider_calls s + S failed /\
    tokens_acquired r.2 = tokens_acquired s + S failed /\
    attempts r.2 = attempts s + S failed /\
    pulled r.2 <= pulled s + S failed * Z.to_nat k /\
    sleeps r.2 = sleeps s ++ take failed [4; 4; 4; 8]%Z /\
    cache r.2 = cache s.
Proof.
  intros r. subst r. unfold run.
  destruct (retrying_trace ddgs query k as_string 4 1 5 s eq_refl ltac:(lia))
    as (errs & s' & Hrun & Hlen & _ & Hfull & Hc & Ht & Ha & Hp & Hsl & _ & Hca & _).
  rewrite Hrun. cbn [fst snd]. exists (length errs).
  rewrite waits_of_policy in Hsl by done.
  split; [done|]. split.
  { intros e He. apply attempt_outcome_raised in He as [e0 He0]. by eapply Hfull. }
  by repeat split.
Qed.

(** X2.  [run] returns what the first successful attempt found: when the
    searches of the first attempts fail with [errs], at most four of
    them, and the next one returns [v], [run] returns [v] (serialized
    when [as_string] is set) after exactly that many provider calls plus
    one, having slept once after each failure and printed one line for
    each failure, in order. *)
Theorem run_returns_first_success
    (ddgs : provider) (query : pystr) (k : Z) (as_string : bool) (s : state)
    (errs : list pyexc) (v : pyval) :
  length errs <= 4 ->
  (forall i e, errs !! i = Some e ->
     (_search_from_ddgs ddgs query k (at_call (provider_calls s + i))).1 = Raised e) ->
  (_search_from_ddgs ddgs query k (at_call (provider_calls s + length errs))).1
    = Returned v ->
  exists s',
    run ddgs query k as_string s = (Returned (returned_as as_string v), s') /\
    provider_calls s' = provider_calls s + S (length errs) /\
    attempts s' = attempts s + S (length errs) /\
    sleeps s' = sleeps s ++ take (length errs) [4; 4; 4; 8]%Z /\
    stdout s' = stdout s ++ (logged query <$> errs).
Proof.
  intros Hlen Herrs Hok. rewrite search_at_call in Hok.
  assert (Hfail : forall i e, errs !! i = Some e ->
            search_outcome ddgs query k (provider_calls s + i) = Raised e).
  { intros i e Hi. rewrite <- search_at_call. by apply Herrs. }
  unfold run.
  destruct (retrying_trace ddgs query k as_string 4 1 5 s eq_refl ltac:(lia))
    as (errs' & s' & Hrun & Hlen' & Herrs' & Hfull & Hc & _ & Ha & _ & Hsl & _ & _ & Hout).
  assert (Hsame : length errs' = length errs).
  { destruct (Nat.lt_trichotomy (length errs') (length errs)) as [Hlt|[Heq|Hgt]].
    - destruct (lookup_lt_is_Some_2 errs (length errs') Hlt) as [e He].
      specialize (Hfull e (Hfail _ _ He)). lia.
    - done.
    - destruct (lookup_lt_is_Some_2 errs' (length errs) Hgt) as [e He].
      specialize (Herrs' _ _ He). congruence. }
  assert (errs' = errs) as ->.
  { by apply (failures_determined
                (fun i => search_outcome ddgs query k (provider_calls s + i))). }
  exists s'. rewrite Hrun. unfold attempt_outcome. rewrite Hok in Hout |- *.
  rewrite waits_of_policy in Hsl by done. rewrite app_nil_r in Hout.
  by repeat split.
Qed.

Lemma run_returns_first_success_witness :
  exists s',
    run provider_flaky (text "rust") 2 false initial_state =
      (Returned (returned_as false (PList (mock_row <$> [1; 2]%N))), s') /\
    provider_calls s' = provider_calls initial_state + 3 /\
    attempts s' = attempts initial_state + 3 /\
    sleeps s' = sleeps initial_state ++ take 2 [4; 4; 4; 8]%Z /\
    stdout s' = stdout initial_state ++
                (logged (text "rust") <$> [ratelimit_error; timeout_error]).
Proof.
  apply (run_returns_first_success provider_flaky (text "rust") 2 false initial_state
           [ratelimit_error; timeout_error] (PList (mock_row <$> [1; 2]%N))).
  - cbn. lia.
  - intros [|[|i]] e; cbn [lookup list_lookup]; intros [= <-]; reflexivity.
  - vm_compute. reflexivity.
Defined.

(** X3.  [run] prints one line for each attempt that fails and nothing
    else: none when the first attempt succeeds, five when it raises.  The
    lines are those of the failures [failures] of the searches of the
    failed attempts, in order: for a failure whose message is some text,
    "Ratelimit", and some more text, the rate-limit notice for this
    query; for any other failure, "An error occurred: " followed by the
    message of that failure. *)
Theorem run_logs_each_failed_attempt
    (ddgs : provider) (query : pystr) (k : Z) (as_string : bool) (s : state) :
  let r := run ddgs query k as_string s in
  exists failures lines,
    stdout r.2 = stdout s ++ lines /\
    (forall v, r.1 = Returned v -> attempts r.2 = attempts s + S (length failures)) /\
    (forall e, r.1 = Raised e -> length failures = 5 /\ attempts r.2 = attempts s + 5) /\
    Forall2 (fun e0 line =>
               ((exists a b, exc_str e0 = a ++ text "Ratelimit" ++ b) ->
                  line = text "Rate limit hit for query: " ++ query ++
                         text ". Retrying...") /\
               ((forall a b, exc_str e0 <> a ++ text "Ratelimit" ++ b) ->
                  line = text "An error occurred: " ++ exc_str e0))
            failures lines /\
    (forall i e0, failures !! i = Some e0 ->
       (_search_from_ddgs ddgs query k (at_call (provider_calls s + i))).1 = Raised e0).
Proof.
  intros r. subst r. unfold run.
  destruct (retrying_trace ddgs query k as_string 4 1 5 s eq_refl ltac:(lia))
    as (errs & s' & Hrun & Hlen & Herrs & Hfull & _ & _ & Ha & _ & _ & _ & _ & Hout).
  rewrite Hrun. cbn [fst snd]. unfold attempt_outcome.
  assert (Hlines : forall l : list pyexc,
            Forall2 (fun e0 line =>
               ((exists a b, exc_str e0 = a ++ text "Ratelimit" ++ b) ->
                  line = text "Rate limit hit for query: " ++ query ++
                         text ". Retrying...") /\
               ((forall a b, exc_str e0 <> a ++ text "Ratelimit" ++ b) ->
                  line = text "An error occurred: " ++ exc_str e0))
              l (logged query <$> l)).
  { intros l. apply Forall2_fmap_r, Forall_Forall2_diag, Forall_forall.
    intros e0 _. split; [apply logged_ratelimit|apply logged_other]. }
  destruct (search_outcome ddgs query k (provider_calls s + length errs)) as [v|e0] eqn:Hf.
  - exists errs, (logged query <$> errs). rewrite app_nil_r in Hout.
    split; [done|]. split; [done|]. split; [discriminate|]. split; [apply Hlines|].
    intros i e0 Hi. rewrite search_at_call. by apply Herrs.
  - specialize (Hfull e0 eq_refl).
    exists (errs ++ [e0]), (logged query <$> (errs ++ [e0])).
    rewrite fmap_app. split; [done|]. split; [discriminate|].
    rewrite length_app, Hfull. split; [intros _ _; split; [done|lia]|].
    rewrite <- fmap_app. split; [apply Hlines|].
    intros i e1 Hi. rewrite search_at_call.
    apply lookup_app_Some in Hi as [Hi|[Hge Hi]]; [by apply Herrs|].
    apply list_lookup_singleton_Some in Hi as [Hi <-].
    replace i with (length errs) by lia. done.
Qed.

(** At a provider that is rate limited, then times out, then answers, the
    two lines printed are the notice and the message of the time-out. *)
Example flaky_provider_log :
  stdout (run provider_flaky (text "rust") 2 false initial_state).2 =
  [text "Rate limit hit for query: rust. Retrying...";
   text "An error occurred: timed out"].
Proof. vm_compute. reflexivity. Qed.

(** X4.  A record that lacks a field is reported by the name of the
    field only: each of the five attempts prints "An error occurred: "
    followed by the name of the first missing field in single quotes (the
    [str] of the [KeyError]), and nothing else is printed. *)
Theorem missing_field_is_logged_by_name
    (ddgs : provider) (query : pystr) (k : Z) (as_string : bool) (s : state)
    (good : list record) (bad : record) (key : pystr) (tail : list yielded) :
  Forall has_fields good -> length good < Z.to_nat k ->
  first_missing bad = Some key ->
  (forall i, i < 5 ->
     ddgs (provider_calls s + i) query = Iterable ((Item <$> good) ++ Item bad :: tail)) ->
  stdout (run ddgs query k as_string s).2 =
  stdout s ++ replicate 5 (text "An error occurred: '" ++ key ++ text "'").
Proof.
  intros Hgood Hlen Hbad Hddgs.
  assert (Hfound : forall i, i < 5 ->
            search_outcome ddgs query k (provider_calls s + i) = Raised (key_error key)).
  { intros i Hi. unfold search_outcome.
    by rewrite (Hddgs i Hi), (rows_malformed _ _ _ key _ Hgood Hlen Hbad). }
  assert (Hline : logged query (key_error key) =
                  text "An error occurred: '" ++ key ++ text "'").
  { destruct (first_missing_key _ _ Hbad) as [-> | [-> | ->]]; reflexivity. }
  unfold run.
  destruct (retrying_trace ddgs query k as_string 4 1 5 s eq_refl ltac:(lia))
    as (errs & s' & Hrun & Hlen' & Herrs & Hfull & _ & _ & _ & _ & _ & _ & _ & Hout).
  rewrite Hrun. cbn [snd].
  rewrite (Hfound (length errs) ltac:(lia)) in Hout, Hfull.
  specialize (Hfull _ eq_refl).
  assert (errs = replicate 4 (key_error key)) as ->.
  { apply (failures_determined
             (fun i => search_outcome ddgs query k (provider_calls s + i)));
      [by rewrite length_replicate|done|].
    intros i e [-> Hi]%lookup_replicate. apply Hfound. lia. }
  rewrite Hout. cbn [replicate fmap list_fmap app]. by rewrite Hline.
Qed.

Lemma missing_field_is_logged_by_name_witness :
  stdout (run provider_malformed (text "rust") 3 false initial_state).2 =
  stdout initial_state ++ replicate 5 (text "An error occurred: '" ++ text "body" ++ text "'").
Proof.
  apply (missing_field_is_logged_by_name provider_malformed (text "rust") 3 false
           initial_state [mock_record 1] (delete (text "body") (mock_record 2))
           (text "body") [Item (mock_record 3)]).
  - repeat constructor; eexists; vm_compute; reflexivity.
  - vm_compute. lia.
  - vm_compute. reflexivity.
  - intros i _. reflexivity.
Defined.


(* ===================================================================== *)
(** * The search and the provider's sequence *)

Section Laziness.

Lemma rows_take_answers n : forall it, rows n (take n it) = rows n it.
Proof.
  induction n as [|n IH]; intros it; [done|].
  destruct it as [|[i|e] it]; cbn [take rows]; [done| |done].
  by rewrite IH.
Qed.

Lemma pulls_take_answers n : forall it, pulls n (take n it) = pulls n it.
Proof.
  induction n as [|n IH]; intros it; [done|].
  destruct it as [|[i|e] it]; cbn [take pulls]; [done| |done].
  by rewrite IH.
Qed.

Lemma rows_fewer n : forall n' it rs',
  n <= n' -> rows n' it = Returned rs' -> rows n it = Returned (take n rs').
Proof.
  induction n as [|n IH]; intros n' it rs' Hn Hrows; [done|].
  destruct n' as [|n']; [lia|].
  destruct it as [|[i|e] it]; cbn [rows] in *.
  - by injection Hrows as <-.
  - destruct (result_outcome i) as [row|]; [|discriminate].
    destruct (rows n' it) as [rest|] eqn:Hrest; [|discriminate].
    injection Hrows as <-. cbn [take].
    by rewrite (IH n' it rest ltac:(lia) Hrest).
  - discriminate.
Qed.

Lemma pulls_records n : forall recs,
  Forall has_fields (take n recs) ->
  pulls n (Item <$> recs) = min n (S (length recs)).
Proof.
  induction n as [|n IH]; intros recs Hrecs; [done|].
  destruct recs as [|i recs]; [cbn; lia|].
  cbn [take] in Hrecs. apply Forall_cons in Hrecs as [Hi Hrecs].
  destruct (result_outcome_fields i Hi) as (row & Hrow & _).
  cbn [fmap list_fmap pulls]. rewrite Hrow.
  change (list_fmap _ _ Item recs) with (Item <$> recs).
  rewrite IH by done. cbn [length]. lia.
Qed.
End Laziness.

(** X5.  One search calls the provider exactly once, also when
    [max_results] is zero or negative, asks the sequence it hands back
    for at most [max_results] records, and does nothing else: it takes no
    limiter token, counts no attempt, does not sleep or print, and does
    not touch the cache. *)
Theorem search_asks_for_at_most_max_results
    (ddgs : provider) (query : pystr) (k : Z) (s : state) :
  let r := _search_from_ddgs ddgs query k s in
  provider_calls r.2 = S (provider_calls s) /\
  pulled s <= pulled r.2 <= pulled s + Z.to_nat k /\
  tokens_acquired r.2 = tokens_acquired s /\
  attempts r.2 = attempts s /\
  clock r.2 = clock s /\ sleeps r.2 = sleeps s /\
  stdout r.2 = stdout s /\ cache r.2 = cache s.
Proof.
  intros r. subst r. rewrite search_eq. cbn.
  pose proof (search_pulls_le ddgs query k (provider_calls s)).
  repeat split; lia.
Qed.

(** X6.  On a sequence of records the search stops as soon as it has
    [max_results] of them, without asking for the next; when the provider
    has fewer, it asks once more and finds the sequence exhausted. *)
Theorem search_stops_at_max_results
    (ddgs : provider) (query : pystr) (k : Z) (s : state) (recs : list record) :
  ddgs (provider_calls s) query = Iterable (Item <$> recs) ->
  Forall has_fields (take (Z.to_nat k) recs) ->
  pulled (_search_from_ddgs ddgs query k s).2 =
  pulled s + min (Z.to_nat k) (S (length recs)).
Proof.
  intros Hddgs Hrecs. rewrite search_eq. cbn [snd pulled add_pulls count_provider_call].
  unfold search_pulls. by rewrite Hddgs, pulls_records.
Qed.

Lemma search_stops_at_max_results_witness :
  pulled (_search_from_ddgs provider_five (text "rust") 3 initial_state).2 =
  pulled initial_state + min (Z.to_nat 3) (S (length mock_records)).
Proof.
  apply (search_stops_at_max_results provider_five (text "rust") 3 initial_state
           mock_records).
  - reflexivity.
  - repeat constructor; eexists; vm_compute; reflexivity.
Defined.

(** X7.  What the provider's sequence holds beyond its first
    [max_results] answers has no effect: on two sequences that agree on
    those, whatever follows (more records, malformed ones, a failure of
    the iterator), the search gives the same outcome and the same state. *)
Theorem search_ignores_what_lies_beyond
    (ddgs ddgs' : provider) (query : pystr) (k : Z) (s : state)
    (it it' : list yielded) :
  ddgs (provider_calls s) query = Iterable it ->
  ddgs' (provider_calls s) query = Iterable it' ->
  take (Z.to_nat k) it = take (Z.to_nat k) it' ->
  _search_from_ddgs ddgs query k s = _search_from_ddgs ddgs' query k s.
Proof.
  intros Hit Hit' Htake. rewrite !search_eq.
  unfold search_outcome, search_pulls. rewrite Hit, Hit'.
  rewrite <- (rows_take_answers _ it), <- (rows_take_answers _ it').
  rewrite <- (pulls_take_answers _ it), <- (pulls_take_answers _ it').
  by rewrite Htake.
Qed.

Lemma search_ignores_what_lies_beyond_witness :
  _search_from_ddgs provider_five (text "rust") 2 initial_state =
  _search_from_ddgs provider_breaks (text "rust") 2 initial_state.
Proof.
  apply (search_ignores_what_lies_beyond provider_five provider_breaks (text "rust") 2
           initial_state (Item <$> mock_records)
           [Item (mock_record 1); Item (mock_record 2); Throws timeout_error;
            Item (mock_record 3)]).
  - reflexivity.
  - reflexivity.
  - reflexivity.
Defined.

(** X8.  Asking for fewer results gives a prefix: when the search for
    [k'] results returns a list, the search for any [k <= k'] on the same
    provider answer returns the first [k] elements of that list, and so
    does [run]. *)
Theorem fewer_results_are_a_prefix
    (ddgs : provider) (query : pystr) (k k' : Z) (s : state) (rs' : list pyval) :
  (k <= k')%Z ->
  (_search_from_ddgs ddgs query k' s).1 = Returned (PList rs') ->
  (_search_from_ddgs ddgs query k s).1 = Returned (PList (take (Z.to_nat k) rs')) /\
  (run ddgs query k false s).1 = Returned (PList (take (Z.to_nat k) rs')).
Proof.
  intros Hk Hsearch. rewrite search_eq in Hsearch. cbn [fst] in Hsearch.
  assert (Hfound : search_outcome ddgs query k (provider_calls s)
                   = Returned (PList (take (Z.to_nat k) rs'))).
  { unfold search_outcome in *.
    destruct (ddgs (provider_calls s) query) as [e|it]; [discriminate|].
    destruct (rows (Z.to_nat k') it) as [rs|e] eqn:Hrows; [|discriminate].
    injection Hsearch as ->.
    by rewrite (rows_fewer (Z.to_nat k) (Z.to_nat k') it rs' ltac:(lia) Hrows). }
  split; [by rewrite search_eq|].
  by rewrite (run_first_attempt_returns _ _ _ false _ _ Hfound).
Qed.

Lemma fewer_results_are_a_prefix_witness :
  (_search_from_ddgs provider_five (text "rust") 2 initial_state).1
    = Returned (PList (take (Z.to_nat 2) (mock_row <$> [1; 2; 3]%N))) /\
  (run provider_five (text "rust") 2 false initial_state).1
    = Returned (PList (take (Z.to_nat 2) (mock_row <$> [1; 2; 3]%N))).
Proof.
  apply (fewer_results_are_a_prefix provider_five (text "rust") 2 3 initial_state
           (mock_row <$> [1; 2; 3]%N)).
  - lia.
  - vm_compute. reflexivity.
Defined.


(* ===================================================================== *)
(** * The life of a cache entry *)

Section Entries.
Variable ddgs : provider.
Variables (query : pystr) (max_results : Z) (as_string : bool).

Abbreviation key := (query, max_results, as_string).
Abbreviation call := (cached_run ddgs query max_results as_string).

(** [run] calls the provider, lets time go forward only, and leaves the
    cache alone. *)
Lemma run_frame s :
  let r := run ddgs query max_results as_string s in
  provider_calls s < provider_calls r.2 /\ (clock s <= clock r.2)%Z /\
  cache r.2 = cache s.
Proof.
  intros r. subst r. unfold run.
  destruct (retrying_trace ddgs query max_results as_string 4 1 5 s eq_refl ltac:(lia))
    as (errs & s' & Hrun & Hlen & _ & _ & Hc & _ & _ & _ & _ & Hcl & Hca & _).
  rewrite Hrun. cbn [snd]. rewrite waits_of_policy in Hcl by done.
  split; [lia|]. split; [|done]. rewrite Hcl. clear -Hlen.
  do 5 (destruct errs as [|? errs]; [cbn; lia|]). cbn in Hlen. lia.
Qed.

Lemma cached_run_miss s :
  get_from_cache key s = None ->
  call s =
  match run ddgs query max_results as_string s with
  | (Returned v, s1) => (Returned v, set_in_cache key v 300 s1)
  | (Raised e, s1) => (Raised e, s1)
  end.
Proof. intros Hmiss. unfold cached_run, cached. by rewrite Hmiss. Qed.

(** A miss calls the provider. *)
Lemma cached_run_miss_calls s :
  get_from_cache key s = None -> provider_calls s < provider_calls (call s).2.
Proof.
  intros Hmiss. rewrite (cached_run_miss s Hmiss).
  destruct (run_frame s) as (Hc & _).
  by destruct (run ddgs query max_results as_string s) as [[v|e] s1].
Qed.

(** What any call does to the clock and to the entries of other keys. *)
Lemma cached_run_frame s key' :
  key' <> key ->
  (clock s <= clock (call s).2)%Z /\ cache (call s).2 !! key' = cache s !! key'.
Proof.
  intros Hne. unfold cached_run, cached.
  destruct (get_from_cache key s) as [v|]; [done|].
  destruct (run_frame s) as (_ & Hcl & Hca).
  destruct (run ddgs query max_results as_string s) as [[v|e] s1];
    cbn [fst snd set_in_cache cache_store cache clock] in *.
  - split; [done|]. rewrite lookup_insert_ne by done. by rewrite Hca.
  - split; [done|]. by rewrite Hca.
Qed.

(** The entry a successful call leaves, and what reads find of it. *)
Lemma cached_run_first s v s1 :
  get_from_cache key s = None ->
  run ddgs query max_results as_string s = (Returned v, s1) ->
  call s = (Returned v, set_in_cache key v 300 s1).
Proof. intros Hmiss Hrun. by rewrite (cached_run_miss s Hmiss), Hrun. Qed.

Lemma cached_run_hit_within s v s1 d :
  run ddgs query max_results as_string s = (Returned v, s1) ->
  (0 <= d < 300)%Z ->
  call (elapse d (set_in_cache key v 300 s1)) =
  (Returned (reread_val true v), elapse d (set_in_cache key v 300 s1)).
Proof.
  intros Hrun Hd. unfold cached_run, cached.
  rewrite (get_from_cache_live key _ (json_dumps true v) (clock s1 + 300)
             (reread_val true v)); [done| | | |].
  - cbn [cache elapse set_in_cache cache_store]. apply lookup_insert_eq.
  - cbn [clock elapse set_in_cache cache_store]. lia.
  - apply json_loads_dumps. by eapply run_returns_sound_keys.
  - apply reread_val_not_none. by eapply run_returns_a_value.
Qed.
End Entries.

Lemma get_from_cache_expired key s payload expiry :
  cache s !! key = Some (payload, expiry) -> (expiry <= clock s)%Z ->
  get_from_cache key s = None.
Proof.
  intros Hc Ht. unfold get_from_cache. rewrite Hc.
  by replace (clock s <? expiry)%Z with false by (symmetry; by apply Z.ltb_ge).
Qed.

(** An absent entry does not appear by itself. *)
Lemma get_from_cache_stays_absent key s s' :
  cache s' !! key = cache s !! key -> (clock s <= clock s')%Z ->
  get_from_cache key s = None -> get_from_cache key s' = None.
Proof.
  unfold get_from_cache. intros -> Hcl.
  destruct (cache s !! key) as [[payload expiry]|]; [|done].
  destruct (Z.ltb_spec (clock s) expiry) as [Hlive|Hdead].
  - intros Hnone. destruct (clock s' <? expiry)%Z; [exact Hnone|done].
  - intros _. by replace (clock s' <? expiry)%Z with false
      by (symmetry; apply Z.ltb_ge; lia).
Qed.

(** X9.  An entry is served for less than 300 seconds: a call repeated
    300 seconds or more after a successful one finds no live entry, runs
    [run] again, which calls the provider again, and when that returns
    stores the new result under the key with a new expiry. *)
Theorem cached_run_after_expiry
    (ddgs : provider) (query : pystr) (k : Z) (as_string : bool) (s : state)
    (v : pyval) (s1 : state) (d : Z) :
  let key := (query, k, as_string) in
  get_from_cache key s = None ->
  run ddgs query k as_string s = (Returned v, s1) ->
  (300 <= d)%Z ->
  let first := cached_run ddgs query k as_string s in
  let s2 := elapse d first.2 in
  let again := cached_run ddgs query k as_string s2 in
  get_from_cache key s2 = None /\
  again = match run ddgs query k as_string s2 with
          | (Returned v', s3) =>
              (Returned v', cache_store key (json_dumps true v') (clock s3 + 300)%Z s3)
          | (Raised e, s3) => (Raised e, s3)
          end /\
  provider_calls first.2 < provider_calls again.2 /\
  (forall v', again.1 = Returned v' ->
     exists expiry, cache again.2 !! key = Some (json_dumps true v', expiry) /\
                    (clock s2 + 300 <= expiry)%Z).
Proof.
  intros key Hmiss Hrun Hd first s2 again.
  assert (Hfirst : first = (Returned v, set_in_cache key v 300 s1))
    by (by apply cached_run_first).
  assert (Hgone : get_from_cache key s2 = None).
  { apply (get_from_cache_expired key s2 (json_dumps true v) (clock s1 + 300)).
    - subst s2. rewrite Hfirst. cbn [cache elapse snd set_in_cache cache_store].
      apply lookup_insert_eq.
    - subst s2. rewrite Hfirst. cbn [clock elapse snd set_in_cache cache_store]. lia. }
  assert (Hagain := cached_run_miss ddgs query k as_string s2 Hgone).
  fold again in Hagain.
  split; [done|]. split; [exact Hagain|]. split.
  - pose proof (cached_run_miss_calls ddgs query k as_string s2 Hgone) as Hcalls.
    fold again in Hcalls. subst s2. by cbn [provider_calls elapse] in Hcalls.
  - intros v' Hv'. rewrite Hagain in Hv' |- *.
    destruct (run_frame ddgs query k as_string s2) as (_ & Hcl & _).
    destruct (run ddgs query k as_string s2) as [[v2|e] s3]; [|discriminate].
    injection Hv' as ->. exists (clock s3 + 300)%Z. split.
    + cbn [snd cache set_in_cache cache_store]. apply lookup_insert_eq.
    + cbn [snd] in Hcl. lia.
Qed.

Lemma cached_run_after_expiry_witness :
  let query := text "rust programming" in
  let key := (query, 3%Z, false) in
  let first := cached_run provider_five query 3 false initial_state in
  let s2 := elapse 300 first.2 in
  let again := cached_run provider_five query 3 false s2 in
  get_from_cache key s2 = None /\
  again = match run provider_five query 3 false s2 with
          | (Returned v', s3) =>
              (Returned v', cache_store key (json_dumps true v') (clock s3 + 300)%Z s3)
          | (Raised e, s3) => (Raised e, s3)
          end /\
  provider_calls first.2 < provider_calls again.2 /\
  (forall v', again.1 = Returned v' ->
     exists expiry, cache again.2 !! key = Some (json_dumps true v', expiry) /\
                    (clock s2 + 300 <= expiry)%Z).
Proof.
  intros query.
  apply (cached_run_after_expiry provider_five query 3 false initial_state three_rows
           (run provider_five query 3 false initial_state).2 300%Z).
  - reflexivity.
  - vm_compute. reflexivity.
  - lia.
Defined.

(** X10.  Failures are not cached: when [run] raises on a miss,
    [cached_run] raises the same error and stores nothing, so the next
    call, whenever it comes, is a miss again and calls the provider
    again. *)
Theorem failed_call_is_not_cached
    (ddgs : provider) (query : pystr) (k : Z) (as_string : bool) (s : state)
    (e : pyexc) (s1 : state) (d : Z) :
  let key := (query, k, as_string) in
  get_from_cache key s = None ->
  run ddgs query k as_string s = (Raised e, s1) ->
  (0 <= d)%Z ->
  cached_run ddgs query k as_string s = (Raised e, s1) /\
  cache s1 = cache s /\
  get_from_cache key (elapse d s1) = None /\
  provider_calls s1 < provider_calls (cached_run ddgs query k as_string (elapse d s1)).2.
Proof.
  intros key Hmiss Hrun Hd.
  destruct (run_frame ddgs query k as_string s) as (_ & Hcl & Hca).
  rewrite Hrun in Hcl, Hca. cbn [snd] in Hcl, Hca.
  assert (Hstill : get_from_cache key (elapse d s1) = None).
  { apply (get_from_cache_stays_absent key s); [|cbn [clock elapse]; lia|done].
    cbn [cache elapse]. by rewrite Hca. }
  split; [by rewrite (cached_run_miss _ _ _ _ s Hmiss), Hrun|].
  split; [done|]. split; [done|].
  by apply (cached_run_miss_calls ddgs query k as_string (elapse d s1)).
Qed.

Lemma failed_call_is_not_cached_witness :
  let query := text "rust" in
  let r := run provider_down query 8 true initial_state in
  cached_run provider_down query 8 true initial_state = (Raised (reclassified ratelimit_error), r.2) /\
  cache r.2 = cache initial_state /\
  get_from_cache (query, 8%Z, true) (elapse 1 r.2) = None /\
  provider_calls r.2 < provider_calls (cached_run provider_down query 8 true (elapse 1 r.2)).2.
Proof.
  intros query r.
  apply (failed_call_is_not_cached provider_down query 8 true initial_state
           (reclassified ratelimit_error) r.2 1%Z).
  - reflexivity.
  - vm_compute. reflexivity.
  - lia.
Defined.

(** X11.  A call reads and writes the entry of its own triple only: the
    entry of any other (query, max_results, as_string) is as it was, and
    a triple that had no live entry has none afterwards, so the result
    stored for one triple is never served for another (not even for the
    same query with the other [as_string]). *)
Theorem cached_run_keeps_other_entries
    (ddgs : provider) (query : pystr) (k : Z) (as_string : bool) (s : state)
    (key' : cache_key) :
  key' <> (query, k, as_string) ->
  let r := cached_run ddgs query k as_string s in
  cache r.2 !! key' = cache s !! key' /\
  (get_from_cache key' s = None -> get_from_cache key' r.2 = None).
Proof.
  intros Hne r. subst r.
  destruct (cached_run_frame ddgs query k as_string s key' Hne) as [Hcl Hca].
  split; [done|]. by apply get_from_cache_stays_absent.
Qed.

Lemma cached_run_keeps_other_entries_witness :
  let query := text "rust programming" in
  let r := cached_run provider_five query 3 false initial_state in
  cache r.2 !! (query, 3%Z, true) = cache initial_state !! (query, 3%Z, true) /\
  (get_from_cache (query, 3%Z, true) initial_state = None ->
   get_from_cache (query, 3%Z, true) r.2 = None).
Proof.
  intros query.
  apply (cached_run_keeps_other_entries provider_five query 3 false initial_state
           (query, 3%Z, true)).
  discriminate.
Defined.

(** X12.  Being read does not prolong an entry: a hit leaves the state,
    and so the expiry, as it was, and a call 300 seconds or more after
    the successful call that stored the entry is a miss that calls the
    provider again, however recently the entry was served. *)
Theorem hit_does_not_extend_lifetime
    (ddgs : provider) (query : pystr) (k : Z) (as_string : bool) (s : state)
    (v : pyval) (s1 : state) (d1 d2 : Z) :
  let key := (query, k, as_string) in
  get_from_cache key s = None ->
  run ddgs query k as_string s = (Returned v, s1) ->
  (0 <= d1 < 300)%Z -> (300 <= d1 + d2)%Z ->
  let first := cached_run ddgs query k as_string s in
  let hit := cached_run ddgs query k as_string (elapse d1 first.2) in
  let later := cached_run ddgs query k as_string (elapse d2 hit.2) in
  hit = (Returned (reread_val true v), elapse d1 first.2) /\
  cache hit.2 !! key = Some (json_dumps true v, clock s1 + 300)%Z /\
  get_from_cache key (elapse d2 hit.2) = None /\
  provider_calls hit.2 < provider_calls later.2.
Proof.
  intros key Hmiss Hrun Hd1 Hd2 first hit later.
  assert (Hfirst : first = (Returned v, set_in_cache key v 300 s1))
    by (by apply cached_run_first).
  assert (Hhit : hit = (Returned (reread_val true v), elapse d1 first.2)).
  { subst hit. rewrite Hfirst. cbn [snd]. by eapply cached_run_hit_within. }
  assert (Hentry : cache hit.2 !! key = Some (json_dumps true v, clock s1 + 300)%Z).
  { rewrite Hhit, Hfirst. cbn [snd cache elapse set_in_cache cache_store].
    apply lookup_insert_eq. }
  assert (Hgone : get_from_cache key (elapse d2 hit.2) = None).
  { apply (get_from_cache_expired key _ (json_dumps true v) (clock s1 + 300)).
    - exact Hentry.
    - rewrite Hhit, Hfirst. cbn [snd clock elapse set_in_cache cache_store]. lia. }
  split; [done|]. split; [done|]. split; [done|].
  pose proof (cached_run_miss_calls ddgs query k as_string _ Hgone) as Hcalls.
  by cbn [provider_calls elapse] in Hcalls.
Qed.

Lemma hit_does_not_extend_lifetime_witness :
  let query := text "rust programming" in
  let s1 := (run provider_five query 3 false initial_state).2 in
  let first := cached_run provider_five query 3 false initial_state in
  let hit := cached_run provider_five query 3 false (elapse 299 first.2) in
  let later := cached_run provider_five query 3 false (elapse 1 hit.2) in
  hit = (Returned (reread_val true three_rows), elapse 299 first.2) /\
  cache hit.2 !! (query, 3%Z, false) = Some (json_dumps true three_rows, clock s1 + 300)%Z /\
  get_from_cache (query, 3%Z, false) (elapse 1 hit.2) = None /\
  provider_calls hit.2 < provider_calls later.2.
Proof.
  intros query s1.
  apply (hit_does_not_extend_lifetime provider_five query 3 false initial_state
           three_rows s1 299%Z 1%Z).
  - reflexivity.
  - vm_compute. reflexivity.
  - lia.
  - lia.
Defined.


(* ===================================================================== *)
(** * The shape of the string result *)

Section Shape.
Local Open Scope N_scope.

Abbreviation visible := (Forall (fun c : N => 32 <= c)).

Lemma hexdigit_visible d : 32 <= hexdigit d.
Proof. unfold hexdigit. destruct (d <? 10); lia. Qed.

Lemma u_escape_visible n : visible (u_escape n).
Proof.
  unfold u_escape, format_04x.
  repeat (constructor; [first [apply hexdigit_visible|lia]|]). constructor.
Qed.

Lemma escape_char_visible ea c : visible (escape_char ea c).
Proof.
  unfold escape_char. destruct (short_escape c) as [e|] eqn:E.
  - apply short_escape_cases in E.
    destruct E as [E|[E|[E|[E|[E|[E|E]]]]]]; injection E as -> ->;
      repeat (constructor; [lia|]); constructor.
  - destruct (N.ltb_spec c 32); [apply u_escape_visible|].
    destruct (negb ea || (c <=? 126)); [by repeat constructor|].
    destruct (c <? 65536); [apply u_escape_visible|].
    apply Forall_app; split; apply u_escape_visible.
Qed.

Lemma encode_basestring_visible ea s : visible (encode_basestring ea s).
Proof.
  unfold encode_basestring. constructor; [lia|].
  apply Forall_app. split; [|by repeat constructor].
  induction s as [|c s IH]; [constructor|].
  cbn [flat_map]. apply Forall_app. split; [apply escape_char_visible|done].
Qed.

Lemma join_visible sep parts :
  visible sep -> Forall visible parts -> visible (join sep parts).
Proof.
  intros Hsep Hparts. induction Hparts as [|p ps Hp Hps IH]; [constructor|].
  destruct ps as [|q ps]; [done|].
  change (join sep (p :: q :: ps)) with (p ++ sep ++ join sep (q :: ps)).
  apply Forall_app. split; [done|]. apply Forall_app. by split.
Qed.

(** [json.dumps] writes no control character: those of the text are
    escaped, and the separators it adds are a comma or a colon and a
    space. *)
Lemma json_dumps_visible ea v : visible (json_dumps ea v).
Proof.
  induction v as [|s|items IH|pairs IH] using pyval_nested_ind; cbn [json_dumps].
  - by repeat constructor.
  - apply encode_basestring_visible.
  - apply Forall_app. split; [by repeat constructor|].
    apply Forall_app. split; [|by repeat constructor].
    apply join_visible; [by repeat constructor|]. by apply Forall_fmap.
  - apply Forall_app. split; [by repeat constructor|].
    apply Forall_app. split; [|by repeat constructor].
    apply join_visible; [by repeat constructor|]. apply Forall_fmap.
    eapply Forall_impl; [exact IH|]. intros [k0 v0] Hv0. cbn [fst snd] in *.
    apply Forall_app. split; [apply encode_basestring_visible|].
    apply Forall_app. split; [by repeat constructor|done].
Qed.
End Shape.

(** X13.  With [as_string] set, what [run] returns is a string that
    starts with an opening and ends with a closing square bracket and
    holds no character below U+0020: the line feeds, carriage returns,
    tabs and other control characters of the provider's text are all
    escaped. *)
Theorem string_result_has_no_control_character
    (ddgs : provider) (query : pystr) (k : Z) (s s' : state) (v : pyval) :
  run ddgs query k true s = (Returned v, s') ->
  exists inner,
    v = PStr (text "[" ++ inner ++ text "]") /\
    Forall (fun c => (32 <= c)%N) (text "[" ++ inner ++ text "]").
Proof.
  intros Hrun.
  destruct (run_returned_from_search _ _ _ _ _ _ _ Hrun) as (n & it & rs & _ & _ & ->).
  cbn [returned_as]. eexists. split; [reflexivity|].
  apply (json_dumps_visible false (PList rs)).
Qed.

Lemma string_result_has_no_control_character_witness :
  exists inner,
    PStr (json_dumps false three_rows) = PStr (text "[" ++ inner ++ text "]") /\
    Forall (fun c => (32 <= c)%N) (text "[" ++ inner ++ text "]").
Proof.
  apply (string_result_has_no_control_character provider_five (text "rust programming") 3
           initial_state
           (run provider_five (text "rust programming") 3 true initial_state).2).
  vm_compute. reflexivity.
Defined.


(** X14.  Called with the query alone, [run] searches for 8 results and
    returns a string: the JSON text of a list of at most 8 rows, which
    [json.loads] reads back as that list. *)
Theorem run_defaults_to_eight_results_as_string
    (ddgs : provider) (query : pystr) (s s' : state) (v : pyval) :
  run_call ddgs query None None s = (Returned v, s') ->
  run_call ddgs query None None s = run ddgs query 8 true s /\
  exists rs,
    v = PStr (json_dumps false (PList rs)) /\
    length rs <= 8 /\
    Forall (fun row => exists href body title, row = search_result href body title) rs /\
    json_loads (json_dumps false (PList rs)) = Some (PList rs).
Proof.
  unfold run_call. cbn [default]. intros Hrun. split; [done|].
  destruct (run_returned_from_search _ _ _ _ _ _ _ Hrun) as (n & it & rs & _ & Hrows & ->).
  exists rs. split; [done|]. split; [|split].
  - rewrite (rows_length _ _ _ Hrows). change (Z.to_nat 8) with 8. lia.
  - apply rows_complete in Hrows. clear -Hrows.
    induction Hrows as [|y row ys rs (i & _ & h & b & t & _ & _ & _ & ->) _ IH];
      constructor; [by exists h, b, t|done].
  - apply json_roundtrip. by eapply rows_well_formed.
Qed.

Lemma run_defaults_to_eight_results_as_string_witness :
  run_call provider_five (text "rust") None None initial_state =
    run provider_five (text "rust") 8 true initial_state /\
  exists rs,
    PStr (json_dumps false (PList (mock_row <$> [1; 2; 3; 4; 5]%N)))
      = PStr (json_dumps false (PList rs)) /\
    length rs <= 8 /\
    Forall (fun row => exists href body title, row = search_result href body title) rs /\
    json_loads (json_dumps false (PList rs)) = Some (PList rs).
Proof.
  apply (run_defaults_to_eight_results_as_string provider_five (text "rust") initial_state
           (run provider_five (text "rust") 8 true initial_state).2).
  vm_compute. reflexivity.
Defined.
